(** * tldr: a shallow embedding of [tldr.c]

    The program is a sequential command-line tool: it fetches a zip bundle
    of cheat-sheet pages, extracts one language subtree into a cache
    directory, writes a flat index of the cached pages, and renders one
    page with four prefix-triggered styles.

    Conventions of the embedding.
    - C text is a [string]; the terminating NUL is left implicit, so the
      files, arguments and environment are text without NUL bytes.
    - A [char *] that may be [NULL] is an [option string]; a pointer into
      a string is the suffix it points at, and [p + 1] is [ptr_succ].
    - Dereferencing [NULL] (or [NULL + 1]) is the outcome [Fault].
    - [strcpy]/[strcat] into the [char buf[BUF_SIZE]] path buffers are
      string appends: the paths are taken to fit the buffers.  The limit
      that [fgets] puts on a record, [BUF_SIZE - 1] bytes, is modelled.
    - The values of [config.h] (not part of the sources at hand) and the
      environment are parameters of the development.
    - libcurl and libarchive are libraries: a transfer gives a bundle or
      an error text, and a bundle is the list of its entries in archive
      order.  Asking for a header past the last entry gives
      [ARCHIVE_EOF] once; the reader is then at its end, where a further
      request is refused with [ARCHIVE_FATAL] and the entry stays clear,
      its path name [NULL].
    - A file is known by the path name that the program hands to [fopen]
      or to the archive library; [..] components and links in a path
      name are not resolved.
    - The disk is seen in three ways that the model does not tie
      together: [files] is what [fopen] finds, [cache] is what [ftw]
      walks at the language root, [bundle] is the zip at [PAGES_TMP]. *)

From Stdlib Require Import String Ascii List Arith Lia Bool Permutation.
From stdpp Require Import base option gmap strings.
Import ListNotations.

(** ** C strings *)

Module CString.

Definition newline : ascii := "010"%char.
Definition slash : ascii := "/"%char.
Definition nl : string := String newline "".
Definition tab : string := String "009"%char "".

(** [strchr(s, c)]: the suffix of [s] at the first [c], or [NULL]. *)
Fixpoint strchr (s : string) (c : ascii) : option string :=
  match s with
  | EmptyString => None
  | String a s' => if Ascii.eqb a c then Some s else strchr s' c
  end.

(** [strstr(h, n)]: the suffix of [h] at the first occurrence of [n]. *)
Fixpoint strstr (h n : string) : option string :=
  if String.prefix n h then Some h
  else match h with
       | EmptyString => None
       | String _ h' => strstr h' n
       end.

(** [p + 1] for a pointer [p] at a non-empty suffix. *)
Definition ptr_succ (p : string) : string :=
  match p with
  | EmptyString => EmptyString
  | String _ t => t
  end.

(** [!strcmp(a, b)]. *)
Definition strcmp_eq (a b : string) : bool := String.eqb a b.

(** [!strncmp(a, b, n)]: the first [n] characters agree. *)
Definition strncmp_eq (a b : string) (n : nat) : bool :=
  String.eqb (String.substring 0 n a) (String.substring 0 n b).

(** [*strchr(buf, c) = '\0']: what [buf] holds once its first [c] is
    overwritten by the terminator; [None] when [strchr] gives [NULL]. *)
Fixpoint cut_at (buf : string) (c : ascii) : option string :=
  match buf with
  | EmptyString => None
  | String a s' =>
      if Ascii.eqb a c then Some EmptyString
      else option_map (String a) (cut_at s' c)
  end.

(** [fgets(buf, n, fp)] reads at most [n - 1] characters and stops after
    a newline; [read_upto k] is that read with [k] characters of room
    left.  The result is the buffer and the rest of the stream. *)
Fixpoint read_upto (k : nat) (stream : string) : string * string :=
  match k, stream with
  | O, _ => (EmptyString, stream)
  | _, EmptyString => (EmptyString, EmptyString)
  | S k', String c rest =>
      if Ascii.eqb c newline then (String c EmptyString, rest)
      else let '(buf, rest') := read_upto k' rest in (String c buf, rest')
  end.

(** [NULL] at end of file, otherwise the buffer and the remaining stream. *)
Definition fgets (n : nat) (stream : string) : option (string * string) :=
  match stream with
  | EmptyString => None
  | _ => Some (read_upto (n - 1) stream)
  end.

(** The buffers that [while (fgets(buf, n, fp))] sees, one per iteration.
    Every successful [fgets] takes at least one character off the stream,
    so [String.length stream] iterations are enough. *)
Fixpoint read_lines_fuel (fuel n : nat) (stream : string) : list string :=
  match fuel with
  | O => []
  | S fuel' =>
      match fgets n stream with
      | None => []
      | Some (buf, rest) => buf :: read_lines_fuel fuel' n rest
      end
  end.

Definition read_lines (n : nat) (stream : string) : list string :=
  read_lines_fuel (String.length stream) n stream.

End CString.
Export CString.

Definition BUF_SIZE : nat := 1024.

(** ** The world the program runs in *)

(** What [ftw] can meet below the walked path. *)
#[warnings="-register-all"]
Inductive tree : Type :=
| File
| Dir (entries : list (string * tree))
| Other.

Inductive typeflag : Type := FTW_F | FTW_D | FTW_NS.

(** An entry of the zip bundle; a directory entry has no contents. *)
Record archive_entry : Type := Entry {
  pathname : string;
  contents : option string
}.

Definition archive : Type := list archive_entry.

Record world : Type := World {
  files : gmap string string;       (* regular files, by path name *)
  writable : string -> bool;        (* can this path be created or rewritten *)
  cache : option tree;              (* what lies at the walked language root *)
  bundle : option archive;          (* the decoded zip at PAGES_TMP, if any *)
  remote : archive + string;        (* what PAGES_URL serves, or curl's error *)
  archive_error_string : option string;
  out : string;                     (* stdout *)
  err : string;                     (* stderr *)
  opened : list string              (* every path handed to fopen, in order *)
}.

(** [FILE *]: [f_data] is what the stream can still give to [fgets]. *)
Record FILE : Type := Stream {
  f_path : string;
  f_mode : string;
  f_data : string
}.

(** How a call ends: it returns, the process exits, or it dereferences
    a null pointer. *)
Inductive outcome (A : Type) : Type :=
| Return (a : A) (w : world)
| Exit (status : nat) (w : world)
| Fault.
Arguments Return {A} a w.
Arguments Exit {A} status w.
Arguments Fault {A}.

Definition prog (A : Type) : Type := world -> outcome A.

Definition ret {A} (a : A) : prog A := fun w => Return a w.

Definition bind {A B} (m : prog A) (k : A -> prog B) : prog B :=
  fun w =>
    match m w with
    | Return a w' => k a w'
    | Exit s w' => Exit s w'
    | Fault => Fault
    end.

Notation "x <- m ;; k" := (bind m (fun x => k))
  (at level 100, m at next level, right associativity).
Notation "m ;;; k" := (bind m (fun _ => k))
  (at level 100, right associativity).

Definition fault {A} : prog A := fun _ => Fault.
Definition exit {A} (status : nat) : prog A := fun w => Exit status w.

Definition set_files (fs : gmap string string) (w : world) : world :=
  World fs (writable w) (cache w) (bundle w) (remote w)
        (archive_error_string w) (out w) (err w) (opened w).
Definition set_bundle (b : option archive) (w : world) : world :=
  World (files w) (writable w) (cache w) b (remote w)
        (archive_error_string w) (out w) (err w) (opened w).
Definition set_out (o : string) (w : world) : world :=
  World (files w) (writable w) (cache w) (bundle w) (remote w)
        (archive_error_string w) o (err w) (opened w).
Definition set_err (e : string) (w : world) : world :=
  World (files w) (writable w) (cache w) (bundle w) (remote w)
        (archive_error_string w) (out w) e (opened w).
Definition set_opened (l : list string) (w : world) : world :=
  World (files w) (writable w) (cache w) (bundle w) (remote w)
        (archive_error_string w) (out w) (err w) l.

(** [printf("%s", s)], [puts(s)] and [fprintf(stderr, "%s", s)]. *)
Definition print (s : string) : prog unit :=
  fun w => Return tt (set_out (out w +:+ s) w).
Definition puts (s : string) : prog unit :=
  print (s +:+ nl).
Definition eprint (s : string) : prog unit :=
  fun w => Return tt (set_err (err w +:+ s) w).

(** [fopen(path, mode)] for the two modes the program uses: ["w"] creates
    or truncates the file, anything else reads an existing one. *)
Definition fopen (path mode : string) : prog (option FILE) :=
  fun w =>
    let w := set_opened (opened w ++ [path]) w in
    if String.eqb mode "w" then
      if writable w path
      then Return (Some (Stream path mode "")) (set_files (<[path := ""]> (files w)) w)
      else Return None w
    else
      match files w !! path with
      | Some data => Return (Some (Stream path mode data)) w
      | None => Return None w
      end.

(** [fprintf(fp, "%s", s)] on a stream opened for writing. *)
Definition fprint (fp : FILE) (s : string) : prog unit :=
  fun w =>
    let old := default "" (files w !! f_path fp) in
    Return tt (set_files (<[f_path fp := old +:+ s]> (files w)) w).

(** ** config.h *)

Record config : Type := Config {
  HOME : string;                (* getenv("HOME"), taken to be set *)
  PAGES_PATH : string;
  PAGES_LANG : string;
  PAGES_TMP : string;
  HEADING_STYLE : string;
  SUBHEADING_STYLE : string;
  COMMAND_DESC_STYLE : string;
  COMMAND_STYLE : string
}.

Definition RESET_STYLING : string := String "027"%char "[0m".

(** ** The program *)

(** The result of the scan in [find_page]: the buffer it returns, [NULL],
    or a dereference of the [NULL] that [strchr] gave. *)
Inductive scan_result : Type :=
| Hit (buf : string)
| Miss
| NullDeref.

(** What [ftw] hands to its callback, in the order of the walk: the path
    itself first, then, for a directory, each entry with the path
    [dir/name], depth first. *)
Fixpoint ftw_visits (path : string) (t : tree) : list (string * typeflag) :=
  match t with
  | File => [(path, FTW_F)]
  | Other => [(path, FTW_NS)]
  | Dir entries =>
      (path, FTW_D) ::
      flat_map (fun e => ftw_visits (path +:+ "/" +:+ fst e) (snd e)) entries
  end.

Section Program.

Variable cfg : config.

Definition error_terminate {A} (msg : string) (details : option string) : prog A :=
  eprint (msg +:+ "; details: " +:+ default "none" details +:+ "." +:+ nl);;;
  exit 1.

Definition usage_text : string :=
  "USAGE: tldr [options] <[platform/]command>" +:+ nl +:+ nl +:+
  "[options]" +:+ nl +:+
  tab +:+ "-h:" +:+ tab +:+ "this help overview" +:+ nl +:+
  tab +:+ "-l:" +:+ tab +:+ "show all available pages" +:+ nl +:+
  tab +:+ "-u:" +:+ tab +:+ "fetch lastest copies of cached pages" +:+ nl +:+ nl +:+
  "[platform]" +:+ nl +:+
  tab +:+ "android" +:+ nl +:+
  tab +:+ "common" +:+ nl +:+
  tab +:+ "index" +:+ nl +:+
  tab +:+ "linux" +:+ nl +:+
  tab +:+ "osx" +:+ nl +:+
  tab +:+ "sunos" +:+ nl +:+
  tab +:+ "windows" +:+ nl +:+ nl +:+
  "<command>" +:+ nl +:+
  tab +:+ "Show examples for this command" +:+ nl.

Definition tldr_usage : prog unit := print usage_text.

(** The zip decoder and the transfer are libraries: a download either
    leaves the served bundle in the temporary file or reports an error,
    and then no bundle is left there. *)
Definition fetch_pages : prog unit :=
  tldr_archive <- fopen (PAGES_TMP cfg) "w";;
  match tldr_archive with
  | None => error_terminate "Failed to create a temporary file" None
  | Some _ =>
      fun w =>
        match remote w with
        | inl ar => Return tt (set_bundle (Some ar) w)
        | inr err_curl =>
            error_terminate "Failed to fetch pages" (Some err_curl)
                            (set_bundle None w)
        end
  end.

(** [archive_read_extract(ap, aep, 0)] after [archive_entry_set_pathname]:
    a regular entry becomes the file at its new path name; a directory
    entry adds no regular file.  The answer is whether it gave
    [ARCHIVE_OK].  The flags are 0, so the library takes the path name as
    it is: the file is recorded under that name, and where a name with
    [..] components or a link on its way leads on disk is not modelled. *)
Definition archive_read_extract (path : string) (e : archive_entry) : prog bool :=
  fun w =>
    if writable w path then
      match contents e with
      | Some data => Return true (set_files (<[path := data]> (files w)) w)
      | None => Return true w
      end
    else Return false w.

(** The first loop of [extract_pages]: headers are read up to and
    including the entry named [archive_path], and what is left of the
    archive is the result.  When no entry has that name the loop ends
    because [archive_read_next_header] has answered [ARCHIVE_EOF]: the
    reader is at its end, and the result is [None]. *)
Fixpoint seek_root (archive_path : string) (ar : archive) : option archive :=
  match ar with
  | [] => None
  | e :: rest =>
      if strcmp_eq (pathname e) archive_path then Some rest
      else seek_root archive_path rest
  end.

(** The second loop of [extract_pages], started with entries left to
    read; the end of the archive is then the first [ARCHIVE_EOF]. *)
Fixpoint extract_loop (archive_path : string) (ar : archive) : prog unit :=
  match ar with
  | [] => ret tt
  | e :: rest =>
      if negb (strncmp_eq (pathname e) archive_path (String.length archive_path))
      then ret tt
      else
        match strchr (pathname e) slash with
        | None => fault
        | Some from_slash =>
            let page_path := HOME cfg +:+ PAGES_PATH cfg +:+ from_slash in
            ok <- archive_read_extract page_path e;;
            if ok then extract_loop archive_path rest
            else fun w =>
                   error_terminate "Failed to archive_read_extract()"
                                   (archive_error_string w) w
        end
  end.

(** [fopen(PAGES_TMP, "r")] and [archive_read_open_FILE]: the entries of
    the bundle, when the file is there. *)
Definition open_archive : prog (option archive) :=
  fun w => Return (bundle w) (set_opened (opened w ++ [PAGES_TMP cfg]) w).

(** Both loops test the answer of [archive_read_next_header] against
    [ARCHIVE_EOF] only.  When the first loop has read to the end, the
    request of the second loop is refused with [ARCHIVE_FATAL]; the loop
    takes its body, and [strncmp] reads the [NULL] path name of the
    clear entry. *)
Definition extract_pages : prog unit :=
  tldr_archive <- open_archive;;
  match tldr_archive with
  | None => error_terminate "Failed to open the archive" None
  | Some ar =>
      let archive_path := "tldr-master" +:+ PAGES_LANG cfg +:+ "/" in
      match seek_root archive_path ar with
      | Some rest => extract_loop archive_path rest
      | None => fault
      end
  end.

Definition open_index (mode : string) : prog FILE :=
  fp <- fopen (HOME cfg +:+ PAGES_PATH cfg +:+ "/index") mode;;
  match fp with
  | None =>
      error_terminate
        "Failer to open index, probably you should run 'tldr -u'" (Some mode)
  | Some f => ret f
  end.

Definition ftw_callback (tldr_index : FILE) (path : string) (fl : typeflag)
  : prog Z :=
  match fl with
  | FTW_F =>
      match strstr path (PAGES_LANG cfg) with
      | None => fault
      | Some lang =>
          match strchr (ptr_succ lang) slash with
          | None => fault
          | Some p => fprint tldr_index (ptr_succ p +:+ nl);;; ret 0%Z
          end
      end
  | _ => ret 0%Z
  end.

(** [ftw] calls [fn] on every visit until one call answers non-zero. *)
Fixpoint ftw_calls (fn : string -> typeflag -> prog Z)
    (visits : list (string * typeflag)) : prog Z :=
  match visits with
  | [] => ret 0%Z
  | (path, fl) :: rest =>
      r <- fn path fl;;
      if Z.eqb r 0 then ftw_calls fn rest else ret r
  end.

(** [ftw(path, fn, nopenfd)]; [cache w] is what lies at the one path the
    program walks, and a path that does not exist gives [-1]. *)
Definition ftw (path : string) (fn : string -> typeflag -> prog Z) : prog Z :=
  fun w =>
    match cache w with
    | None => Return (-1)%Z w
    | Some t => ftw_calls fn (ftw_visits path t) w
    end.

Definition index_pages : prog unit :=
  let buf := HOME cfg +:+ PAGES_PATH cfg +:+ PAGES_LANG cfg in
  tldr_index <- open_index "w";;
  ftw buf (ftw_callback tldr_index);;;
  ret tt.

(** The loop of [list_pages] over the buffers [fgets] gives. *)
Fixpoint list_loop (bufs : list string) : prog unit :=
  match bufs with
  | [] => ret tt
  | buf :: rest =>
      match strchr (ptr_succ buf) slash with
      | None => fault
      | Some p => print (ptr_succ p);;; list_loop rest
      end
  end.

Definition list_pages : prog unit :=
  tldr_index <- open_index "w";;
  list_loop (read_lines BUF_SIZE (f_data tldr_index)).

(** The loop of [find_page] over the buffers [fgets] gives. *)
Fixpoint find_scan (page_name page_filename : string) (bufs : list string)
  : scan_result :=
  match bufs with
  | [] => Miss
  | buf :: rest =>
      match strchr page_name slash with
      | Some _ =>
          if strcmp_eq page_filename buf then
            match cut_at buf newline with
            | Some line => Hit line
            | None => NullDeref
            end
          else find_scan page_name page_filename rest
      | None =>
          match strchr buf slash with
          | None => NullDeref
          | Some p =>
              if strcmp_eq page_filename (ptr_succ p) then
                match cut_at buf newline with
                | Some line => Hit line
                | None => NullDeref
                end
              else find_scan page_name page_filename rest
          end
      end
  end.

Definition find_page (page_name : string) : prog (option string) :=
  tldr_index <- open_index "r";;
  let page_filename := page_name +:+ ".md" +:+ nl in
  match find_scan page_name page_filename
                  (read_lines BUF_SIZE (f_data tldr_index)) with
  | Hit buf => ret (Some buf)
  | Miss => ret None
  | NullDeref => fault
  end.

Definition first_char (buf : string) : ascii :=
  match buf with
  | EmptyString => "000"%char
  | String c _ => c
  end.

Definition styled (c : ascii) (style buf : string) : string :=
  if Ascii.eqb (first_char buf) c then style +:+ buf +:+ RESET_STYLING else "".

(** What one turn of the loop of [display_page] prints. *)
Definition display_line (buf : string) : string :=
  if strcmp_eq buf nl then ""
  else styled "#" (HEADING_STYLE cfg) buf
       +:+ styled ">" (SUBHEADING_STYLE cfg) buf
       +:+ styled "-" (COMMAND_DESC_STYLE cfg) buf
       +:+ styled "`" (COMMAND_STYLE cfg) buf.

Fixpoint display_loop (bufs : list string) : prog unit :=
  match bufs with
  | [] => ret tt
  | buf :: rest => print (display_line buf);;; display_loop rest
  end.

Definition display_page (page_name : string) : prog unit :=
  page_path <- find_page page_name;;
  match page_path with
  | None => puts "The page has not been found.";;; exit 1
  | Some page_path =>
      let buf := HOME cfg +:+ PAGES_PATH cfg +:+ PAGES_LANG cfg +:+ "/" +:+ page_path in
      page <- fopen buf "r";;
      match page with
      | None => fault
      | Some page => display_loop (read_lines BUF_SIZE (f_data page))
      end
  end.

Definition main (argv : list string) : prog Z :=
  match argv with
  | [_; arg] =>
      if strcmp_eq "-h" arg then tldr_usage;;; ret 0%Z
      else if strcmp_eq "-u" arg then
        puts "Fetching pages...";;;
        fetch_pages;;;
        puts "Extracting pages...";;;
        extract_pages;;;
        puts "Indexing pages...";;;
        index_pages;;;
        ret 0%Z
      else if strcmp_eq "-l" arg then list_pages;;; ret 0%Z
      else display_page arg;;; ret 0%Z
  | _ => tldr_usage;;; ret 1%Z
  end.

End Program.

(** How the process ends: [main] returns its status, [exit] gives its
    own, or the process is killed by the fault. *)
Inductive ending : Type :=
| Ended (status : Z) (w : world)
| Crashed.

Definition run (cfg : config) (argv : list string) (w : world) : ending :=
  match main cfg argv w with
  | Return status w' => Ended status w'
  | Exit status w' => Ended (Z.of_nat status) w'
  | Fault => Crashed
  end.

(** ** The vocabulary of the specification *)

(** The lines of a text file, each with its terminator; a tail without a
    terminator is a last line. *)
Fixpoint split_lines (s : string) : list string :=
  match s with
  | EmptyString => []
  | String c rest =>
      if Ascii.eqb c newline then nl :: split_lines rest
      else match split_lines rest with
           | [] => [String c ""]
           | l :: ls => String c l :: ls
           end
  end.

(** A line as [split_lines] gives it: a body free of newlines, with or
    without the terminator after it. *)
Definition line_shape (r : string) : Prop :=
  exists l, strchr l newline = None /\ (r = l +:+ nl \/ r = l).

(** A line with its terminator stripped. *)
Definition strip_nl (line : string) : string :=
  default line (cut_at line newline).

Definition text_lines (s : string) : list string :=
  map strip_nl (split_lines s).

(** The text made of the given lines, a newline after each. *)
Definition unlines (ls : list string) : string :=
  fold_right (fun l acc => l +:+ nl +:+ acc) "" ls.

Definition has_char (c : ascii) (s : string) : bool :=
  match strchr s c with Some _ => true | None => false end.

(** The query in the form it is compared in. *)
Definition normalized (query : string) : string := query +:+ ".md".

Definition after_first_slash (line : string) : option string :=
  option_map ptr_succ (strchr line slash).

(** The matching rule of the Page Locator on a stripped index line. *)
Definition matches (query line : string) : bool :=
  if has_char slash query then String.eqb line (normalized query)
  else match after_first_slash line with
       | Some filename => String.eqb filename (normalized query)
       | None => false
       end.

(** The first index line that matches. *)
Definition find_spec (query : string) (lines : list string) : option string :=
  find (matches query) lines.

(** The precondition of the Page Locator on the index: every line has a
    ['/'], ends in a newline, and is shorter than [BUF_SIZE] bytes. *)
Definition index_line_ok (line : string) : bool :=
  has_char slash line && has_char newline line
  && (String.length line <? BUF_SIZE)%nat.

Definition index_ok (idx : string) : bool :=
  forallb index_line_ok (split_lines idx).

(** What the matching rule needs of the index for one query: every line
    ends in a newline and is shorter than [BUF_SIZE] bytes, and has a
    ['/'] when the query has none. *)
Definition line_ok_for (query line : string) : bool :=
  (has_char slash query || has_char slash line)
  && has_char newline line
  && (String.length line <? BUF_SIZE)%nat.

Definition index_ok_for (query idx : string) : bool :=
  forallb (line_ok_for query) (split_lines idx).

(** What the not-found path needs of the index for one query: every line
    is shorter than [BUF_SIZE] bytes, and has a ['/'] when the query has
    none. *)
Definition line_scannable_for (query line : string) : bool :=
  (has_char slash query || has_char slash line)
  && (String.length line <? BUF_SIZE)%nat.

Definition index_scannable_for (query idx : string) : bool :=
  forallb (line_scannable_for query) (split_lines idx).

Definition index_path (cfg : config) : string :=
  HOME cfg +:+ PAGES_PATH cfg +:+ "/index".

Definition language_root (cfg : config) : string :=
  HOME cfg +:+ PAGES_PATH cfg +:+ PAGES_LANG cfg.

(** The world once [path] has been handed to [fopen]. *)
Definition opening (path : string) (w : world) : world :=
  set_opened (opened w ++ [path]) w.

(** The world with [data] in the file at [path]. *)
Definition with_file (path data : string) (w : world) : world :=
  set_files (<[path := data]> (files w)) w.

(** The four style rules of the Page Renderer on one line. *)
Definition render_line (cfg : config) (line : string) : string :=
  if String.eqb line nl then ""
  else match line with
       | String "#" _ => HEADING_STYLE cfg +:+ line +:+ RESET_STYLING
       | String ">" _ => SUBHEADING_STYLE cfg +:+ line +:+ RESET_STYLING
       | String "-" _ => COMMAND_DESC_STYLE cfg +:+ line +:+ RESET_STYLING
       | String "`" _ => COMMAND_STYLE cfg +:+ line +:+ RESET_STYLING
       | _ => ""
       end.

Definition concat_strings (l : list string) : string :=
  fold_right String.append "" l.

(** A page rendered line by line. *)
Definition render_spec (cfg : config) (page : string) : string :=
  concat_strings (map (render_line cfg) (split_lines page)).

(** Every line of the text, terminator included, fits a buffer. *)
Definition lines_fit (text : string) : bool :=
  forallb (fun l => String.length l <? BUF_SIZE)%nat (split_lines text).

Definition page_file (cfg : config) (page_path : string) : string :=
  language_root cfg +:+ "/" +:+ page_path.

(** The root synthesized by the Archive Extractor. *)
Definition archive_root (cfg : config) : string :=
  "tldr-master" +:+ PAGES_LANG cfg +:+ "/".

Definition under_root (cfg : config) (e : archive_entry) : bool :=
  String.prefix (archive_root cfg) (pathname e).

(** Where an entry goes: the destination root, then the path of the
    entry from its first ['/'] on. *)
Definition destination (cfg : config) (e : archive_entry) : string :=
  HOME cfg +:+ PAGES_PATH cfg +:+ default "" (strchr (pathname e) slash).

(** The regular files on disk once [e] is extracted. *)
Definition write_entry (cfg : config) (fs : gmap string string)
    (e : archive_entry) : gmap string string :=
  match contents e with
  | Some data => <[destination cfg e := data]> fs
  | None => fs
  end.

(** No entry of [ar] is named exactly as the root. *)
Definition lacks_root (cfg : config) (ar : archive) : bool :=
  forallb (fun e => negb (String.eqb (pathname e) (archive_root cfg))) ar.

(** The entries after a run are none, or start with an entry that is
    not under the root. *)
Definition run_ends (cfg : config) (rest : archive) : bool :=
  match rest with
  | [] => true
  | e :: _ => negb (under_root cfg e)
  end.

(** The visits that reach the body of the callback. *)
Definition is_file (v : string * typeflag) : bool :=
  match snd v with FTW_F => true | _ => false end.

(** A visit, named from the directory [dir] on. *)
Definition below (dir : string) (v : string * typeflag) : string * typeflag :=
  (dir +:+ "/" +:+ fst v, snd v).

(** The regular files at and below [t], named from [path] on, in the
    order of the walk. *)
Fixpoint regular_files (path : string) (t : tree) : list string :=
  match t with
  | File => [path]
  | Other => []
  | Dir entries =>
      flat_map (fun e => regular_files (path +:+ "/" +:+ fst e) (snd e)) entries
  end.

(** The paths of the regular files below the walked directory, relative
    to it: [platform/filename] in a tree of two levels. *)
Definition relative_files (t : tree) : list string :=
  match t with
  | Dir entries => flat_map (fun e => regular_files (fst e) (snd e)) entries
  | _ => []
  end.

(** What the Index Builder needs of [config.h] and [HOME]: the language
    subtree is named ["/" ++ lang] with no further ['/'], and that name
    does not occur in the path of the language root before its last
    segment. *)
Definition config_ok (cfg : config) : bool :=
  match PAGES_LANG cfg with
  | String c lang =>
      Ascii.eqb c slash && negb (has_char slash lang)
      && match strstr (language_root cfg) (PAGES_LANG cfg) with
         | Some found => String.eqb found (PAGES_LANG cfg)
         | None => false
         end
  | EmptyString => false
  end.

(** What the Index Builder writes fits the index line by line: a path
    has no newline inside and leaves room for the terminator in a
    buffer. *)
Definition index_lines_fit (lines : list string) : bool :=
  forallb (fun l => negb (has_char newline l)
                    && (String.length l + 1 <? BUF_SIZE)%nat) lines.



Definition set_cache (t : option tree) (w : world) : world :=
  World (files w) (writable w) t (bundle w) (remote w)
        (archive_error_string w) (out w) (err w) (opened w).

(** ** Sample configuration and worlds *)

Definition esc (code : string) : string := String "027"%char code.

Definition sample_cfg : config :=
  Config "/home/u" "/.cache/tldr" "/pages" "/tmp/tldr.zip"
         (esc "[34;1m") (esc "[37;1m") (esc "[0m") (esc "[32m").

(** A world in which every path can be written, nothing but [fs] is on
    disk, and the remote end does not answer. *)
Definition sample_world (fs : gmap string string) : world :=
  World fs (fun _ => true) None None (inr "no route to host") None "" "" [].

Definition world_with_index (idx : string) : world :=
  sample_world {[ index_path sample_cfg := idx ]}.

Fixpoint repeat_char (c : ascii) (n : nat) : string :=
  match n with
  | O => ""
  | S n' => String c (repeat_char c n')
  end.

(** Two platforms define the page [foo]. *)
Definition two_platforms : string :=
  "linux/foo.md" +:+ nl +:+ "common/foo.md" +:+ nl.

(** A regular file right under the language root leaves a line without
    a ['/'] in the index. *)
Definition stray_file_index : string :=
  "README.md" +:+ nl +:+ "linux/foo.md" +:+ nl.

(** A last line that lacks its newline. *)
Definition unterminated_index : string := "linux/foo.md".

(** One line of 1110 bytes, more than a buffer takes. *)
Definition long_name : string := "linux/" +:+ repeat_char "x" 1100.
Definition long_line_index : string := long_name +:+ ".md" +:+ nl.

(** One line of 1036 bytes whose last 13 are [linux/foo.md] and the
    newline: the second buffer of the scan. *)
Definition split_line_index : string :=
  repeat_char "x" 1023 +:+ "linux/foo.md" +:+ nl.

(** The page of the render-filtering example. *)
Definition sample_page : string :=
  "# Title" +:+ nl +:+ nl +:+ "> desc" +:+ nl +:+ "plain text" +:+ nl
  +:+ "`cmd`" +:+ nl.

(** A world with the index [linux/foo.md] and [page] as that page. *)
Definition world_with_page (page : string) : world :=
  sample_world {[ index_path sample_cfg := "linux/foo.md" +:+ nl;
                  page_file sample_cfg "linux/foo.md" := page ]}.

(** A heading of 1025 bytes, and a line of plain text of 1039 bytes. *)
Definition long_heading_page : string :=
  "#" +:+ repeat_char "x" 1023 +:+ nl.
Definition long_plain_page : string :=
  repeat_char "x" 1023 +:+ "# not a heading" +:+ nl.

(** A bundle in the layout of the remote one: the top-level directory,
    another subtree, the selected subtree, a third subtree. *)
Definition sample_bundle : archive :=
  [ Entry "tldr-master/" None;
    Entry "tldr-master/README.md" (Some "readme");
    Entry "tldr-master/pages/" None;
    Entry "tldr-master/pages/linux/" None;
    Entry "tldr-master/pages/linux/foo.md" (Some "# foo");
    Entry "tldr-master/pages.de/" None;
    Entry "tldr-master/pages.de/linux/foo.md" (Some "# foo (de)") ].

(** A bundle that lists the files of the selected subtree and no entry
    for the directory itself. *)
Definition rootless_bundle : archive :=
  [ Entry "tldr-master/README.md" (Some "readme");
    Entry "tldr-master/pages/linux/foo.md" (Some "# foo") ].

(** A bundle that holds another language only. *)
Definition other_language_bundle : archive :=
  [ Entry "tldr-master/" None;
    Entry "tldr-master/README.md" (Some "readme");
    Entry "tldr-master/pages.de/" None;
    Entry "tldr-master/pages.de/linux/" None;
    Entry "tldr-master/pages.de/linux/foo.md" (Some "# foo (de)") ].

Definition world_with_bundle (ar : archive) : world :=
  World ∅ (fun _ => true) None (Some ar) (inr "no route to host") None "" "" [].

(** A cache of two platforms, and the same cache with a regular file
    right under the language root. *)
Definition sample_cache : tree :=
  Dir [ ("linux", Dir [("foo.md", File); ("bar.md", File)]);
        ("common", Dir [("foo.md", File)]) ].

Definition stray_file_cache : tree :=
  Dir [ ("README.md", File); ("linux", Dir [("foo.md", File)]) ].

(** A page five directories deep, each directory named by 250 letters:
    its path below the language root is longer than a buffer. *)
Fixpoint deep_page (depth : nat) : tree :=
  match depth with
  | O => Dir [("x.md", File)]
  | S d => Dir [(repeat_char "d" 250, deep_page d)]
  end.

Definition deep_cache : tree := Dir [("linux", deep_page 5)].

Fixpoint deep_name (depth : nat) : string :=
  match depth with
  | O => "x"
  | S d => repeat_char "d" 250 +:+ "/" +:+ deep_name d
  end.

(** A world with [t] at the language root and a stale index. *)
Definition world_with_cache (t : tree) : world :=
  set_cache (Some t) (world_with_index ("stale/line.md" +:+ nl)).

(** ** Vocabulary for the null lookups of the Page Locator *)

(** A text file holds no NUL byte. *)
Definition nul_free (s : string) : bool := negb (has_char "000"%char s).

(** A buffer that the scan for a query without ['/'] compares and goes
    past: it has a ['/'], and what follows its first ['/'] is not the
    file name of the page. *)
Definition passed_by (query buf : string) : bool :=
  match strchr buf slash with
  | Some p => negb (String.eqb (query +:+ ".md" +:+ nl) (ptr_succ p))
  | None => false
  end.

(** Among the buffers read, one without ['/'] comes before any match. *)
Definition reaches_bare_buffer (query : string) (bufs : list string) : Prop :=
  exists pre r post,
    bufs = pre ++ r :: post
    /\ forallb (passed_by query) pre = true
    /\ has_char slash r = false.

(** A buffer on which a comparison of the scan for [query] succeeds. *)
Definition matched_by (query buf : string) : Prop :=
  buf = query +:+ ".md" +:+ nl
  \/ exists p, strchr buf slash = Some p /\ ptr_succ p = query +:+ ".md" +:+ nl.

(** A line without ['/'] after the line of the page. *)
Definition stray_after_match_index : string :=
  "linux/foo.md" +:+ nl +:+ "README.md" +:+ nl.

(** ** Vocabulary for the behaviour of whole calls *)

(** The world a call leaves behind, when it does not fault. *)
Definition final_world {A} (o : outcome A) : option world :=
  match o with
  | Return _ w => Some w
  | Exit _ w => Some w
  | Fault => None
  end.

(** A buffer of the loop: not empty, shorter than the size given to
    [fgets], with no newline but possibly a last one. *)
Definition buffer_ok (n : nat) (buf : string) : Prop :=
  buf <> "" /\ String.length buf < n /\ line_shape buf.

(** The arguments that [main] takes as options. *)
Definition is_option (arg : string) : bool :=
  String.eqb "-h" arg || String.eqb "-u" arg || String.eqb "-l" arg.

(** What [open_index] writes to the error stream when [fopen] fails. *)
Definition index_diagnostic (mode : string) : string :=
  "Failer to open index, probably you should run 'tldr -u'; details: "
  +:+ mode +:+ "." +:+ nl.

Definition not_found_message : string := "The page has not been found." +:+ nl.

(** What [ftw_callback] puts in front of the relative path of a file: the
    text between the first ['/'] after the first occurrence of
    [PAGES_LANG] in the path of the language root and the end of that
    path, followed by ['/']; nothing when no ['/'] follows. *)
Definition index_prefix (cfg : config) : string :=
  match strstr (language_root cfg) (PAGES_LANG cfg) with
  | Some found =>
      match strchr (ptr_succ found) slash with
      | Some p => ptr_succ p +:+ "/"
      | None => ""
      end
  | None => ""
  end.

(** A configuration for a user whose home directory ends in the name of
    the language subtree. *)
Definition pages_home_cfg : config :=
  Config "/home/pages" "/.cache/tldr" "/pages" "/tmp/tldr.zip"
         (esc "[34;1m") (esc "[37;1m") (esc "[0m") (esc "[32m").

(** A world in which nothing can be written. *)
Definition read_only_world (fs : gmap string string) : world :=
  World fs (fun _ => false) None None (inr "no route to host") None "" "" [].

(** A world in which everything but [path] can be written, with the
    bundle [ar] in the temporary file. *)
Definition world_protecting (path : string) (ar : archive) : world :=
  World ∅ (fun p => negb (String.eqb p path)) None (Some ar)
        (inr "no route to host") (Some "Permission denied") "" "" [].

(** What is known of the outcome of a call: [R] of the result and the
    world when it returns, [E] of the status and the world when the
    process exits; nothing when it faults. *)
Definition post {A} (o : outcome A) (R : A -> world -> Prop)
    (E : nat -> world -> Prop) : Prop :=
  match o with
  | Return a w => R a w
  | Exit s w => E s w
  | Fault => True
  end.

(** The regular files of [w'] are those of [w], but possibly the one at
    [path]. *)
Definition same_files_but (path : string) (w w' : world) : Prop :=
  forall p, p <> path -> files w' !! p = files w !! p.

(** The line that [error_terminate] writes. *)
Definition diagnostic (msg details : string) : string :=
  msg +:+ "; details: " +:+ details +:+ "." +:+ nl.

(** What a call has put on the error stream when it ended the process
    through [error_terminate]. *)
Definition reported (w w' : world) : Prop :=
  exists msg details, err w' = err w +:+ diagnostic msg details.

(** The three lines a complete update prints. *)
Definition update_progress : string :=
  "Fetching pages..." +:+ nl +:+ "Extracting pages..." +:+ nl
  +:+ "Indexing pages..." +:+ nl.

(** A bundle with two pages of one platform in the selected subtree. *)
Definition two_page_bundle : archive :=
  [ Entry "tldr-master/" None;
    Entry "tldr-master/pages/" None;
    Entry "tldr-master/pages/linux/" None;
    Entry "tldr-master/pages/linux/foo.md" (Some "# foo");
    Entry "tldr-master/pages/linux/bar.md" (Some "# bar");
    Entry "tldr-master/pages/linux/baz.md" (Some "# baz") ].

(** * Properties *)

(** ** Strings *)

Section StringFacts.

Implicit Types (s t u p : string) (c a : ascii).

Lemma string_app_cons a s t : String a s +:+ t = String a (s +:+ t).
Proof. reflexivity. Qed.

Lemma string_app_nil_l s : "" +:+ s = s.
Proof. reflexivity. Qed.

Lemma string_app_nil_r s : s +:+ "" = s.
Proof. induction s as [|a s IH]; [reflexivity|]. by rewrite string_app_cons, IH. Qed.

Lemma string_app_assoc s t u : (s +:+ t) +:+ u = s +:+ t +:+ u.
Proof. induction s as [|a s IH]; [reflexivity|]. by rewrite !string_app_cons, IH. Qed.

Lemma string_length_app s t :
  String.length (s +:+ t) = String.length s + String.length t.
Proof. induction s as [|a s IH]; [reflexivity|]. rewrite string_app_cons. simpl. by rewrite IH. Qed.

Lemma string_app_inv_tail s1 s2 t : s1 +:+ t = s2 +:+ t -> s1 = s2.
Proof.
  revert s2. induction s1 as [|a s1 IH]; intros [|b s2] H.
  - reflexivity.
  - apply (f_equal String.length) in H. rewrite !string_length_app in H.
    simpl in H. lia.
  - apply (f_equal String.length) in H. rewrite !string_length_app in H.
    simpl in H. lia.
  - rewrite !string_app_cons in H. injection H as -> H. f_equal. by apply IH.
Qed.

Lemma eqb_app_tail s1 s2 t : String.eqb (s1 +:+ t) (s2 +:+ t) = String.eqb s1 s2.
Proof.
  destruct (String.eqb_spec s1 s2) as [->|Hne].
  - apply String.eqb_refl.
  - apply String.eqb_neq. intros H. by apply Hne, (string_app_inv_tail _ _ t).
Qed.

Lemma strchr_head c t : strchr (String c t) c = Some (String c t).
Proof. simpl. by rewrite Ascii.eqb_refl. Qed.

Lemma strchr_starts s c p : strchr s c = Some p -> exists t, p = String c t.
Proof.
  induction s as [|a s IH]; simpl; [discriminate|].
  destruct (Ascii.eqb_spec a c) as [->|_]; [|exact IH].
  intros [= <-]. by eexists.
Qed.

Lemma strchr_app_some s t c p :
  strchr s c = Some p -> strchr (s +:+ t) c = Some (p +:+ t).
Proof.
  induction s as [|a s IH]; [discriminate|].
  rewrite string_app_cons. simpl.
  destruct (Ascii.eqb a c); [|exact IH].
  intros [= <-]. by rewrite string_app_cons.
Qed.

Lemma strchr_app_none s t c :
  strchr s c = None -> strchr (s +:+ t) c = strchr t c.
Proof.
  induction s as [|a s IH]; [reflexivity|].
  rewrite string_app_cons. simpl.
  destruct (Ascii.eqb a c); [discriminate|exact IH].
Qed.

Lemma ptr_succ_app p t : p <> "" -> ptr_succ (p +:+ t) = ptr_succ p +:+ t.
Proof. by destruct p. Qed.

Lemma cut_at_app s t c : strchr s c = None -> cut_at (s +:+ String c t) c = Some s.
Proof.
  induction s as [|a s IH].
  - intros _. rewrite string_app_nil_l. simpl. by rewrite Ascii.eqb_refl.
  - rewrite string_app_cons. simpl. destruct (Ascii.eqb a c); [discriminate|].
    intros H. by rewrite (IH H).
Qed.

Lemma cut_at_none s c : strchr s c = None -> cut_at s c = None.
Proof.
  induction s as [|a s IH]; [reflexivity|]. simpl.
  destruct (Ascii.eqb a c); [discriminate|]. intros H. by rewrite (IH H).
Qed.

Lemma has_char_true c s : has_char c s = true <-> strchr s c <> None.
Proof. unfold has_char. destruct (strchr s c); split; congruence. Qed.

Lemma has_char_false c s : has_char c s = false <-> strchr s c = None.
Proof. unfold has_char. destruct (strchr s c); split; congruence. Qed.

Lemma strip_nl_line s : strchr s newline = None -> strip_nl (s +:+ nl) = s.
Proof. intros H. unfold strip_nl, nl. by rewrite (cut_at_app _ _ _ H). Qed.

Lemma strip_nl_plain s : strchr s newline = None -> strip_nl s = s.
Proof. intros H. unfold strip_nl. by rewrite (cut_at_none _ _ H). Qed.

End StringFacts.

(** ** What [fgets] delivers *)

Section Reading.

Implicit Types (s l rest : string) (k n fuel : nat).

Lemma split_lines_nil s : split_lines s = [] -> s = "".
Proof.
  destruct s as [|c s]; [done|]. simpl.
  destruct (Ascii.eqb c newline); [done|]. by destruct (split_lines s).
Qed.

(** One read takes the first line off the stream when the line fits. *)
Lemma read_upto_first_line s : forall k l ls,
  split_lines s = l :: ls -> String.length l <= k ->
  exists rest,
    read_upto k s = (l, rest) /\ ls = split_lines rest /\ s = l +:+ rest
    /\ l <> "".
Proof.
  induction s as [|c s IH]; intros k l ls Hs Hk; [discriminate|].
  simpl in Hs. destruct (Ascii.eqb c newline) eqn:Hc.
  - injection Hs as <- <-. destruct k as [|k]; [simpl in Hk; lia|].
    exists s. simpl. rewrite Hc. by apply Ascii.eqb_eq in Hc as ->.
  - destruct (split_lines s) as [|l' ls'] eqn:Hsp.
    + injection Hs as <- <-. apply split_lines_nil in Hsp as ->.
      destruct k as [|k]; [simpl in Hk; lia|].
      exists "". simpl. rewrite Hc. by destruct k.
    + injection Hs as <- <-. destruct k as [|k]; [simpl in Hk; lia|].
      simpl in Hk.
      destruct (IH k l' ls' eq_refl ltac:(lia)) as (rest & Hr & Hls & Hs' & _).
      exists rest. simpl. rewrite Hc, Hr. rewrite string_app_cons, <- Hs'. done.
Qed.

(** When every line fits the buffer, the loop sees the lines. *)
Lemma read_lines_fuel_split n fuel : forall s,
  String.length s <= fuel ->
  Forall (fun l => String.length l < n) (split_lines s) ->
  read_lines_fuel fuel n s = split_lines s.
Proof.
  induction fuel as [|fuel IH]; intros s Hlen Hfit.
  - destruct s; [done|simpl in Hlen; lia].
  - destruct s as [|c s]; [done|].
    destruct (split_lines (String c s)) as [|l ls] eqn:Hsp.
    { by apply split_lines_nil in Hsp. }
    apply Forall_cons in Hfit as [Hl Hls].
    destruct (read_upto_first_line _ (n - 1) l ls Hsp ltac:(lia))
      as (rest & Hr & -> & Hs & Hne).
    cbn [read_lines_fuel fgets]. rewrite Hr. f_equal. apply IH; [|done].
    apply (f_equal String.length) in Hs. rewrite string_length_app in Hs.
    destruct l; [done|]. simpl in Hs, Hlen. lia.
Qed.

Lemma read_lines_split n s :
  Forall (fun l => String.length l < n) (split_lines s) ->
  read_lines n s = split_lines s.
Proof. intros H. by apply read_lines_fuel_split. Qed.

(** One read makes progress, so the fuel of [read_lines] is never short:
    any larger amount gives the same buffers. *)
Lemma read_upto_progress k s buf rest :
  0 < k -> s <> "" -> read_upto k s = (buf, rest) ->
  String.length rest < String.length s.
Proof.
  revert k buf rest. induction s as [|c s IH]; intros k buf rest Hk Hs Hr; [done|].
  destruct k as [|k]; [lia|]. simpl in Hr.
  destruct (Ascii.eqb c newline).
  - injection Hr as <- <-. simpl. lia.
  - destruct (read_upto k s) as [b r] eqn:Hrd. injection Hr as <- <-.
    destruct k as [|k].
    + simpl in Hrd. injection Hrd as <- <-. simpl. lia.
    + destruct s as [|c' s'].
      * simpl in Hrd. injection Hrd as <- <-. simpl. lia.
      * specialize (IH (S k) b r ltac:(lia) ltac:(done) Hrd). simpl in *. lia.
Qed.

Lemma read_upto_app s : forall k buf rest,
  read_upto k s = (buf, rest) -> s = buf +:+ rest.
Proof.
  induction s as [|c s IH]; intros k buf rest Hr.
  - destruct k; simpl in Hr; by injection Hr as <- <-.
  - destruct k as [|k]; simpl in Hr; [by injection Hr as <- <-|].
    destruct (Ascii.eqb c newline); [by injection Hr as <- <-|].
    destruct (read_upto k s) as [b r] eqn:Hrd. injection Hr as <- <-.
    by rewrite string_app_cons, <- (IH k b r Hrd).
Qed.

Lemma read_lines_fuel_irrelevant n fuel : forall fuel' s,
  2 <= n -> String.length s <= fuel -> String.length s <= fuel' ->
  read_lines_fuel fuel n s = read_lines_fuel fuel' n s.
Proof.
  induction fuel as [|fuel IH]; intros fuel' s Hn Hlen Hlen'.
  - destruct s; [by destruct fuel'|simpl in Hlen; lia].
  - destruct s as [|c s]; [by destruct fuel'|].
    destruct fuel' as [|fuel']; [simpl in Hlen'; lia|].
    cbn [read_lines_fuel fgets].
    destruct (read_upto (n - 1) (String c s)) as [buf rest] eqn:Hr.
    apply read_upto_progress in Hr; [|lia|done]. simpl in Hr, Hlen, Hlen'.
    f_equal. apply IH; [done|lia|lia].
Qed.

Lemma read_lines_fuel_enough n fuel s :
  2 <= n -> String.length s <= fuel ->
  read_lines_fuel fuel n s = read_lines n s.
Proof. intros. by apply read_lines_fuel_irrelevant. Qed.

(** The loop comes to the end of the file: its buffers, one after the
    other, are the whole stream. *)
Lemma read_lines_fuel_whole_stream n fuel : forall s,
  2 <= n -> String.length s <= fuel ->
  concat_strings (read_lines_fuel fuel n s) = s.
Proof.
  induction fuel as [|fuel IH]; intros s Hn Hlen.
  - destruct s; [done|simpl in Hlen; lia].
  - destruct s as [|c s]; [done|]. cbn [read_lines_fuel fgets].
    destruct (read_upto (n - 1) (String c s)) as [buf rest] eqn:Hr.
    assert (Hp : String.length rest < String.length (String c s))
      by (apply (read_upto_progress (n - 1) _ buf); [lia|done|done]).
    cbn [concat_strings fold_right].
    fold (concat_strings (read_lines_fuel fuel n rest)).
    rewrite IH by (simpl in Hp, Hlen; lia).
    symmetry. by apply (read_upto_app _ (n - 1)).
Qed.

Lemma read_lines_whole_stream n s :
  2 <= n -> concat_strings (read_lines n s) = s.
Proof. intros Hn. by apply read_lines_fuel_whole_stream. Qed.

End Reading.

(** ** The Page Locator *)

Section Locator.

Implicit Types (q l r : string) (recs : list string).

Lemma split_lines_shape s : Forall line_shape (split_lines s).
Proof.
  induction s as [|c s IH]; [constructor|]. simpl.
  destruct (Ascii.eqb c newline) eqn:Hc.
  - constructor; [|done]. exists "". split; [done|by left].
  - destruct (split_lines s) as [|l' ls].
    + constructor; [|done]. exists (String c ""). split; [|by right].
      simpl. by rewrite Hc.
    + apply Forall_cons in IH as [(l0 & Hl0 & Hl') Hls]. constructor; [|done].
      exists (String c l0). split; [simpl; by rewrite Hc|].
      destruct Hl' as [->| ->]; [left|right]; done.
Qed.

(** A line that meets the precondition is a body followed by its
    newline, and the body has a ['/'] when the query has none. *)
Lemma line_ok_for_inv q r :
  line_shape r -> line_ok_for q r = true ->
  exists l, r = l +:+ nl /\ strchr l newline = None
            /\ (strchr q slash = None -> exists p, strchr l slash = Some p)
            /\ String.length r < BUF_SIZE.
Proof.
  intros (l & Hl & Hr) Hok. unfold line_ok_for in Hok.
  apply andb_prop in Hok as [Hok Hlen]. apply andb_prop in Hok as [Hsl Hnl].
  apply Nat.ltb_lt in Hlen. apply has_char_true in Hnl.
  destruct Hr as [->| ->]; [|done].
  exists l. split; [done|]. split; [done|]. split; [|done].
  intros Hq. unfold has_char in Hsl. rewrite Hq in Hsl. cbn [orb] in Hsl.
  destruct (strchr l slash) as [p|] eqn:Hp; [by exists p|].
  by rewrite (strchr_app_none _ _ _ Hp) in Hsl.
Qed.

Lemma index_ok_index_ok_for q idx :
  index_ok idx = true -> index_ok_for q idx = true.
Proof.
  unfold index_ok, index_ok_for. rewrite !forallb_forall.
  intros H r Hin. specialize (H r Hin). unfold index_line_ok in H.
  unfold line_ok_for.
  apply andb_prop in H as [H ->]. apply andb_prop in H as [-> ->].
  by rewrite orb_true_r.
Qed.

(** What [find_spec] returns is the first line that matches: no line
    before it does. *)
Lemma find_spec_first q lines l :
  find_spec q lines = Some l <->
  exists before after,
    lines = before ++ l :: after /\ matches q l = true
    /\ Forall (fun x => matches q x = false) before.
Proof.
  unfold find_spec. split.
  - induction lines as [|x lines IH]; [done|]. cbn [find].
    destruct (matches q x) eqn:Hx.
    + intros [= ->]. by exists [], lines.
    + intros (before & after & -> & Hl & Hb)%IH.
      exists (x :: before), after. split; [done|]. split; [done|by constructor].
  - intros (before & after & -> & Hl & Hb).
    induction Hb as [|x before Hx _ IH]; cbn [app find]; [by rewrite Hl|].
    by rewrite Hx.
Qed.

(** The two comparisons of the scan, on a terminated line, are the
    matching rule on the stripped line. *)
Lemma strcmp_whole_line q l t :
  strchr q slash = Some t ->
  strcmp_eq (q +:+ ".md" +:+ nl) (l +:+ nl) = matches q l.
Proof.
  intros Hq. unfold matches, has_char, strcmp_eq, normalized. rewrite Hq.
  by rewrite <- string_app_assoc, eqb_app_tail, String.eqb_sym.
Qed.

Lemma strcmp_filename q l p :
  strchr q slash = None -> strchr l slash = Some p ->
  strcmp_eq (q +:+ ".md" +:+ nl) (ptr_succ (p +:+ nl)) = matches q l.
Proof.
  intros Hq Hp.
  unfold matches, has_char, after_first_slash, strcmp_eq, normalized.
  rewrite Hq, Hp. simpl. destruct (strchr_starts _ _ _ Hp) as [t ->].
  rewrite ptr_succ_app by done.
  by rewrite <- string_app_assoc, eqb_app_tail, String.eqb_sym.
Qed.

Lemma find_scan_index_lines q recs :
  Forall line_shape recs -> forallb (line_ok_for q) recs = true ->
  find_scan q (q +:+ ".md" +:+ nl) recs =
    match find_spec q (map strip_nl recs) with
    | Some l => Hit l
    | None => Miss
    end.
Proof.
  unfold find_spec.
  induction recs as [|r recs IH]; intros Hshape Hok; [done|].
  apply Forall_cons in Hshape as [Hr Hshape].
  simpl in Hok. apply andb_prop in Hok as [Hrok Hok].
  destruct (line_ok_for_inv q r Hr Hrok) as (l & -> & Hnl & Hsl & _).
  specialize (IH Hshape Hok).
  cbn [find_scan map find]. rewrite (strip_nl_line _ Hnl).
  assert (Hcut : cut_at (l +:+ nl) newline = Some l)
    by (unfold nl; by rewrite cut_at_app).
  destruct (strchr q slash) as [t|] eqn:Hq.
  - rewrite (strcmp_whole_line q l t Hq).
    destruct (matches q l); [by rewrite Hcut|exact IH].
  - destruct (Hsl eq_refl) as [p Hp].
    rewrite (strchr_app_some _ nl _ _ Hp), (strcmp_filename q l p Hq Hp).
    destruct (matches q l); [by rewrite Hcut|exact IH].
Qed.

Lemma strchr_suffix s c p : strchr s c = Some p -> exists pre, s = pre +:+ p.
Proof.
  induction s as [|a s IH]; [done|]. simpl.
  destruct (Ascii.eqb a c).
  - intros [= <-]. by exists "".
  - intros [pre ->]%IH. by exists (String a pre).
Qed.

Lemma strchr_in_suffix pre t c :
  strchr t c <> None -> strchr (pre +:+ t) c <> None.
Proof.
  intros Ht. destruct (strchr pre c) as [p|] eqn:Hp.
  - by rewrite (strchr_app_some _ _ _ _ Hp).
  - by rewrite (strchr_app_none _ _ _ Hp).
Qed.

Lemma cut_at_some s c : strchr s c <> None -> cut_at s c <> None.
Proof.
  induction s as [|a s IH]; [done|]. simpl.
  destruct (Ascii.eqb a c); [done|]. intros H. by destruct (cut_at s c); [|apply IH].
Qed.

(** A buffer that passed a comparison of the scan holds a newline. *)
Lemma page_filename_newline pre q :
  cut_at (pre +:+ q +:+ ".md" +:+ nl) newline <> None.
Proof.
  apply cut_at_some. rewrite <- !string_app_assoc. apply strchr_in_suffix.
  unfold nl. by rewrite strchr_head.
Qed.

(** The only [NULL] the scan can dereference is the one [strchr] gives
    for a buffer without ['/'], and only a query without ['/'] asks for
    it: the lookup of the newline comes after a comparison with a text
    that ends in one. *)
Lemma find_scan_fault_inv q recs :
  find_scan q (q +:+ ".md" +:+ nl) recs = NullDeref ->
  strchr q slash = None /\ Exists (fun r => strchr r slash = None) recs.
Proof.
  induction recs as [|r recs IH]; [done|]. cbn [find_scan]. unfold strcmp_eq.
  destruct (strchr q slash) as [t|] eqn:Hq.
  - destruct (String.eqb_spec (q +:+ ".md" +:+ nl) r) as [<-|_].
    + pose proof (page_filename_newline "" q) as Hcut. rewrite string_app_nil_l in Hcut.
      by destruct (cut_at _ _).
    + intros [[=] _]%IH.
  - destruct (strchr r slash) as [p|] eqn:Hp;
      [|intros _; split; [done|by constructor]].
    destruct (String.eqb_spec (q +:+ ".md" +:+ nl) (ptr_succ p)) as [Heq|_].
    + destruct (strchr_suffix _ _ _ Hp) as [pre ->].
      destruct (strchr_starts _ _ _ Hp) as [t ->]. simpl in Heq. subst t.
      pose proof (page_filename_newline (pre +:+ "/") q) as Hcut.
      rewrite string_app_assoc in Hcut. by destruct (cut_at _ _).
    + intros [_ Hex]%IH. split; [done|by constructor].
Qed.

Lemma strchr_none_suffix pre t c :
  strchr (pre +:+ t) c = None -> strchr t c = None.
Proof.
  intros H. destruct (strchr t c) eqn:Ht; [|done].
  by destruct (strchr_in_suffix pre t c ltac:(by rewrite Ht)).
Qed.

(** A text without newline is not the file name the scan compares with. *)
Lemma page_filename_neq q x :
  strchr x newline = None -> strcmp_eq (q +:+ ".md" +:+ nl) x = false.
Proof.
  intros Hx. apply String.eqb_neq. intros <-.
  rewrite <- !string_app_assoc in Hx.
  apply strchr_none_suffix in Hx. unfold nl in Hx. by rewrite strchr_head in Hx.
Qed.

(** Without a matching line the scan ends at the end of the file, when
    every buffer has the ['/'] that the query lacks; a last line without
    newline matches no query. *)
Lemma find_scan_no_match q recs :
  Forall line_shape recs ->
  forallb (fun r => has_char slash q || has_char slash r) recs = true ->
  find_spec q (map strip_nl recs) = None ->
  find_scan q (q +:+ ".md" +:+ nl) recs = Miss.
Proof.
  unfold find_spec.
  induction recs as [|r recs IH]; intros Hshape Hsl Hnone; [done|].
  apply Forall_cons in Hshape as [(l & Hnl & Hr) Hshape].
  cbn [forallb] in Hsl. apply andb_prop in Hsl as [Hrsl Hsl].
  cbn [map find] in Hnone.
  destruct (matches q (strip_nl r)) eqn:Hm; [done|].
  specialize (IH Hshape Hsl Hnone). cbn [find_scan].
  unfold has_char in Hrsl.
  destruct (strchr q slash) as [t|] eqn:Hq.
  - destruct Hr as [->| ->].
    + rewrite (strip_nl_line _ Hnl) in Hm.
      by rewrite (strcmp_whole_line q l t Hq), Hm.
    + by rewrite (page_filename_neq q l Hnl).
  - cbn [orb] in Hrsl. destruct (strchr r slash) as [p|] eqn:Hp; [|done].
    destruct Hr as [->| ->].
    + rewrite (strip_nl_line _ Hnl) in Hm.
      destruct (strchr l slash) as [p'|] eqn:Hp'.
      * rewrite (strchr_app_some _ nl _ _ Hp') in Hp. injection Hp as <-.
        by rewrite (strcmp_filename q l p' Hq Hp'), Hm.
      * rewrite (strchr_app_none _ nl _ Hp') in Hp. done.
    + destruct (strchr_suffix _ _ _ Hp) as [pre ->].
      destruct (strchr_starts _ _ _ Hp) as [t ->]. cbn [ptr_succ].
      rewrite page_filename_neq; [done|].
      apply (strchr_none_suffix (pre +:+ "/")). by rewrite string_app_assoc.
Qed.

(** [find_page] on a world whose index file holds [idx]. *)
Lemma find_page_unfold cfg q w idx :
  files w !! index_path cfg = Some idx ->
  find_page cfg q w =
    match find_scan q (q +:+ ".md" +:+ nl) (read_lines BUF_SIZE idx) with
    | Hit buf => Return (Some buf) (opening (index_path cfg) w)
    | Miss => Return None (opening (index_path cfg) w)
    | NullDeref => Fault
    end.
Proof.
  intros Hidx. unfold find_page, open_index, bind, fopen.
  fold (index_path cfg). simpl. rewrite Hidx. simpl.
  by destruct (find_scan _ _ _).
Qed.

Lemma find_page_no_match cfg q w idx :
  files w !! index_path cfg = Some idx ->
  index_scannable_for q idx = true ->
  find_spec q (text_lines idx) = None ->
  find_page cfg q w = Return None (opening (index_path cfg) w).
Proof.
  intros Hidx Hok Hnone. rewrite (find_page_unfold _ _ _ _ Hidx).
  unfold index_scannable_for in Hok.
  rewrite read_lines_split.
  - rewrite find_scan_no_match; [done|apply split_lines_shape| |done].
    apply forallb_forall. intros r Hin. rewrite forallb_forall in Hok.
    specialize (Hok r Hin). by apply andb_prop in Hok as [? _].
  - apply List.Forall_forall. intros r Hin.
    rewrite forallb_forall in Hok. specialize (Hok r Hin).
    apply andb_prop in Hok as [_ Hlen]. by apply Nat.ltb_lt in Hlen.
Qed.

Lemma find_page_no_index cfg q w :
  files w !! index_path cfg = None ->
  exists w', find_page cfg q w = Exit 1 w'.
Proof.
  intros Hidx. unfold find_page, open_index, bind, fopen.
  fold (index_path cfg). simpl. rewrite Hidx. simpl. by eexists.
Qed.

(** On an index that meets the precondition the scan is the matching
    rule of the specification. *)
Lemma find_page_index_ok_for cfg q w idx :
  files w !! index_path cfg = Some idx -> index_ok_for q idx = true ->
  find_page cfg q w =
    Return (find_spec q (text_lines idx)) (opening (index_path cfg) w).
Proof.
  intros Hidx Hok. rewrite (find_page_unfold _ _ _ _ Hidx).
  unfold index_ok_for in Hok.
  rewrite read_lines_split.
  - rewrite find_scan_index_lines; [|apply split_lines_shape|done].
    unfold text_lines. by destruct (find_spec _ _).
  - apply List.Forall_forall. intros r Hin.
    rewrite forallb_forall in Hok. specialize (Hok r Hin).
    unfold line_ok_for in Hok. apply andb_prop in Hok as [_ Hlen].
    by apply Nat.ltb_lt in Hlen.
Qed.

Lemma find_page_index_ok cfg q w idx :
  files w !! index_path cfg = Some idx -> index_ok idx = true ->
  find_page cfg q w =
    Return (find_spec q (text_lines idx)) (opening (index_path cfg) w).
Proof.
  intros Hidx Hok. by apply find_page_index_ok_for, index_ok_index_ok_for.
Qed.

End Locator.

(** ** The matching rule, the precondition and the not-found path *)

Section LocatorClaims.

Variable cfg : config.

(** C1 (as amended).  For every index whose lines all end in a newline
    and are shorter than [BUF_SIZE] bytes, and every query: when the
    query has a ['/'], [find_page] returns the first index line that,
    stripped of its terminator, equals [query.md]; when the query has no
    ['/'] and every index line has one, [find_page] returns the first
    index line whose portion after its first ['/'] equals [query.md]; it
    returns [NULL] when no line matches. *)
Theorem find_page_matching_rule (q : string) (w : world) (idx : string) :
  files w !! index_path cfg = Some idx ->
  index_ok_for q idx = true ->
  find_page cfg q w =
    Return (find_spec q (text_lines idx)) (opening (index_path cfg) w).
Proof. apply find_page_index_ok_for. Qed.

(** A buffer on which a comparison succeeded holds a newline. *)
Lemma matched_by_newline q buf : matched_by q buf -> cut_at buf newline <> None.
Proof.
  intros [->|(p & Hp & Heq)].
  - pose proof (page_filename_newline "" q) as H.
    by rewrite string_app_nil_l in H.
  - destruct (strchr_suffix _ _ _ Hp) as [pre ->].
    destruct (strchr_starts _ _ _ Hp) as [t ->]. simpl in Heq. subst t.
    change (String slash (q +:+ ".md" +:+ nl)) with ("/" +:+ q +:+ ".md" +:+ nl).
    rewrite <- (string_app_assoc pre "/"). apply page_filename_newline.
Qed.

(** The scan meets a [NULL] exactly when the query has no ['/'] and a
    buffer without ['/'] comes before any match. *)
Lemma find_scan_fault_iff q recs :
  find_scan q (q +:+ ".md" +:+ nl) recs = NullDeref
  <-> has_char slash q = false /\ reaches_bare_buffer q recs.
Proof.
  split.
  - intros H. destruct (find_scan_fault_inv _ _ H) as [Hq _].
    split; [by apply has_char_false|]. revert H.
    induction recs as [|r recs IH]; [done|].
    cbn [find_scan]. rewrite Hq. unfold strcmp_eq.
    destruct (strchr r slash) as [p|] eqn:Hp.
    + destruct (String.eqb_spec (q +:+ ".md" +:+ nl) (ptr_succ p)) as [Heq|Hne].
      * assert (Hm : matched_by q r) by (right; by exists p).
        apply matched_by_newline in Hm. by destruct (cut_at r newline).
      * intros (pre & r' & post & -> & Hpre & Hr')%IH.
        exists (r :: pre), r', post. split; [done|]. split; [|done].
        cbn [forallb]. unfold passed_by at 1. rewrite Hp, Hpre.
        by destruct (String.eqb_spec (q +:+ ".md" +:+ nl) (ptr_succ p)).
    + intros _. exists [], r, recs. split; [done|]. split; [done|].
      unfold has_char. by rewrite Hp.
  - intros [Hq%has_char_false (pre & r & post & -> & Hpre & Hr%has_char_false)].
    induction pre as [|b pre IH]; cbn [app find_scan]; rewrite Hq.
    + by rewrite Hr.
    + cbn [forallb] in Hpre. apply andb_prop in Hpre as [Hb Hpre].
      unfold passed_by in Hb. destruct (strchr b slash) as [p|]; [|done].
      unfold strcmp_eq. apply negb_true_iff in Hb. rewrite Hb. by apply IH.
Qed.

(** C10 (as amended).  On an index file, a text without NUL bytes, in
    which every line has a ['/'] and a terminating newline and is shorter
    than [BUF_SIZE] bytes, no [strchr] of [find_page] gives [NULL]: the
    scan ends with a line or with not-found, for every query.  On any
    index, [find_page] uses a [NULL] exactly when the query has no ['/']
    and a buffer without ['/'] is read before any match: the lookup of
    ['/'] gives [NULL] and one is added to it unchecked.  The lookup of
    the newline never gives [NULL], since it follows a comparison that
    succeeded with a text ending in a newline. *)
Theorem find_page_null_free (q idx : string) (w : world) :
  files w !! index_path cfg = Some idx ->
  nul_free idx = true ->
  (index_ok idx = true ->
   find_scan q (q +:+ ".md" +:+ nl) (read_lines BUF_SIZE idx) <> NullDeref
   /\ exists r, find_page cfg q w = Return r (opening (index_path cfg) w))
  /\ (find_page cfg q w = Fault
      <-> has_char slash q = false
          /\ reaches_bare_buffer q (read_lines BUF_SIZE idx))
  /\ (forall buf, matched_by q buf -> cut_at buf newline <> None).
Proof.
  intros Hidx _. split; [|split].
  - intros Hok. pose proof (find_page_index_ok cfg q w idx Hidx Hok) as H.
    split; [|by eexists].
    rewrite (find_page_unfold _ _ _ _ Hidx) in H.
    by destruct (find_scan _ _ _).
  - rewrite <- find_scan_fault_iff, (find_page_unfold _ _ _ _ Hidx).
    by destruct (find_scan _ _ _).
  - apply matched_by_newline.
Qed.

(** [display_page] when the Page Locator gives [NULL]. *)
Lemma display_page_miss q w w' :
  find_page cfg q w = Return None w' ->
  display_page cfg q w =
    Exit 1 (set_out (out w' +:+ "The page has not been found." +:+ nl) w').
Proof. intros H. unfold display_page, bind. by rewrite H. Qed.

(** C7 (as amended).  For every index in which every line is shorter
    than [BUF_SIZE] bytes and has a ['/'] when the query has none, and in
    which no line matches the query, [find_page] returns [NULL], and
    [display_page] prints the not-found message and exits with status 1;
    the index is the only file it has tried to open. *)
Theorem display_page_not_found (q : string) (w : world) (idx : string) :
  files w !! index_path cfg = Some idx ->
  index_scannable_for q idx = true ->
  find_spec q (text_lines idx) = None ->
  find_page cfg q w = Return None (opening (index_path cfg) w)
  /\ exists w',
      display_page cfg q w = Exit 1 w'
      /\ out w' = out w +:+ "The page has not been found." +:+ nl
      /\ opened w' = opened w ++ [index_path cfg]
      /\ files w' = files w.
Proof.
  intros Hidx Hok Hnone.
  pose proof (find_page_no_match cfg q w idx Hidx Hok Hnone) as Hfind.
  split; [done|].
  eexists. split; [by apply display_page_miss|]. done.
Qed.

End LocatorClaims.

(** First match: [linux/foo.md] stands before [common/foo.md]. *)
Lemma find_page_matching_rule_witness :
  files (world_with_index two_platforms) !! index_path sample_cfg
    = Some two_platforms
  /\ index_ok_for "foo" two_platforms = true
  /\ find_page sample_cfg "foo" (world_with_index two_platforms)
     = Return (Some "linux/foo.md")
              (opening (index_path sample_cfg) (world_with_index two_platforms)).
Proof.
  split; [|split].
  - vm_compute; reflexivity.
  - vm_compute; reflexivity.
  - apply (find_page_matching_rule sample_cfg "foo"
             (world_with_index two_platforms) two_platforms);
      vm_compute; reflexivity.
Defined.

(** The matching rule does not hold for every index: a line without
    ['/'] stops the scan with a fault before the matching line; a last
    line without newline equals the normalized query and is not found;
    a line longer than the buffer equals the normalized query and is
    not found. *)
Lemma find_page_rule_needs_precondition :
  (find_spec "foo" (text_lines stray_file_index) = Some "linux/foo.md"
   /\ find_page sample_cfg "foo" (world_with_index stray_file_index) = Fault)
  /\ (find_spec "linux/foo" (text_lines unterminated_index) = Some "linux/foo.md"
      /\ find_page sample_cfg "linux/foo" (world_with_index unterminated_index)
         = Return None (opening (index_path sample_cfg)
                                (world_with_index unterminated_index)))
  /\ (find_spec long_name (text_lines long_line_index)
        = Some (long_name +:+ ".md")
      /\ find_page sample_cfg long_name (world_with_index long_line_index)
         = Return None (opening (index_path sample_cfg)
                                (world_with_index long_line_index))).
Proof. repeat split; vm_compute; reflexivity. Qed.

Lemma find_page_null_free_witness :
  (nul_free two_platforms = true
   /\ index_ok two_platforms = true
   /\ find_scan "foo" ("foo" +:+ ".md" +:+ nl) (read_lines BUF_SIZE two_platforms)
      <> NullDeref)
  /\ (nul_free stray_file_index = true
      /\ find_page sample_cfg "foo" (world_with_index stray_file_index) = Fault).
Proof.
  split.
  - split; [reflexivity|]. split; [reflexivity|].
    destruct (find_page_null_free sample_cfg "foo" two_platforms
                (world_with_index two_platforms)
                ltac:(vm_compute; reflexivity) ltac:(reflexivity))
      as (Hfree & _ & _).
    apply Hfree. reflexivity.
  - split; [reflexivity|].
    destruct (find_page_null_free sample_cfg "foo" stray_file_index
                (world_with_index stray_file_index)
                ltac:(vm_compute; reflexivity) ltac:(reflexivity))
      as (_ & [_ Hfault] & _).
    apply Hfault. split; [reflexivity|].
    exists [], ("README.md" +:+ nl), ["linux/foo.md" +:+ nl].
    repeat split; vm_compute; reflexivity.
Defined.

(** A line that breaks the invariant need not make a lookup give
    [NULL]: a last line without its newline, a line longer than the
    buffer, a line without ['/'] after the line of the page, and a line
    without ['/'] under a query that names its platform all leave
    [find_page] without a fault. *)
Lemma null_lookup_needs_bare_buffer_first :
  (index_ok unterminated_index = false
   /\ find_page sample_cfg "foo" (world_with_index unterminated_index)
      = Return None (opening (index_path sample_cfg)
                             (world_with_index unterminated_index)))
  /\ (index_ok long_line_index = false
      /\ find_page sample_cfg long_name (world_with_index long_line_index)
         = Return None (opening (index_path sample_cfg)
                                (world_with_index long_line_index)))
  /\ (index_ok stray_after_match_index = false
      /\ find_page sample_cfg "foo" (world_with_index stray_after_match_index)
         = Return (Some "linux/foo.md")
                  (opening (index_path sample_cfg)
                           (world_with_index stray_after_match_index)))
  /\ (index_ok stray_file_index = false
      /\ find_page sample_cfg "linux/foo" (world_with_index stray_file_index)
         = Return (Some "linux/foo.md")
                  (opening (index_path sample_cfg)
                           (world_with_index stray_file_index))).
Proof. repeat split; vm_compute; reflexivity. Qed.

Lemma display_page_not_found_witness :
  files (world_with_index two_platforms) !! index_path sample_cfg
    = Some two_platforms
  /\ index_scannable_for "bar" two_platforms = true
  /\ find_spec "bar" (text_lines two_platforms) = None
  /\ find_page sample_cfg "bar" (world_with_index two_platforms)
     = Return None (opening (index_path sample_cfg)
                            (world_with_index two_platforms))
  /\ exists w',
      display_page sample_cfg "bar" (world_with_index two_platforms) = Exit 1 w'
      /\ out w' = out (world_with_index two_platforms)
                  +:+ "The page has not been found." +:+ nl
      /\ opened w' = opened (world_with_index two_platforms)
                     ++ [index_path sample_cfg]
      /\ files w' = files (world_with_index two_platforms).
Proof.
  split; [vm_compute; reflexivity|].
  split; [vm_compute; reflexivity|].
  split; [vm_compute; reflexivity|].
  apply (display_page_not_found sample_cfg "bar"
           (world_with_index two_platforms) two_platforms);
    vm_compute; reflexivity.
Defined.

(** Not every index without a matching line gives not-found: a line
    without ['/'] faults the scan of a query without platform, and the
    second buffer of a line longer than the buffer can equal the query
    although no line does. *)
Lemma not_found_needs_precondition :
  (find_spec "foo" (text_lines ("README.md" +:+ nl)) = None
   /\ find_page sample_cfg "foo" (world_with_index ("README.md" +:+ nl)) = Fault
   /\ display_page sample_cfg "foo" (world_with_index ("README.md" +:+ nl))
      = Fault)
  /\ (find_spec "linux/foo" (text_lines split_line_index) = None
      /\ find_page sample_cfg "linux/foo" (world_with_index split_line_index)
         = Return (Some "linux/foo.md")
                  (opening (index_path sample_cfg)
                           (world_with_index split_line_index))).
Proof. repeat split; vm_compute; reflexivity. Qed.

(** ** The Page Renderer *)

Section Renderer.

Variable cfg : config.

Lemma set_out_same w : set_out (out w) w = w.
Proof. by destruct w. Qed.

Lemma set_out_twice o o' w : set_out o' (set_out o w) = set_out o' w.
Proof. done. Qed.

(** The four tests of the loop body fire on at most one character. *)
Lemma display_line_render_line buf :
  display_line cfg buf = render_line cfg buf.
Proof.
  unfold display_line, render_line, strcmp_eq, styled.
  destruct (String.eqb buf nl); [done|].
  destruct buf as [|c buf]; [done|]. unfold first_char.
  destruct (Ascii.eqb_spec c "#") as [->|H1];
    [by rewrite ?string_app_nil_l, ?string_app_nil_r|].
  destruct (Ascii.eqb_spec c ">") as [->|H2];
    [by rewrite ?string_app_nil_l, ?string_app_nil_r|].
  destruct (Ascii.eqb_spec c "-") as [->|H3];
    [by rewrite ?string_app_nil_l, ?string_app_nil_r|].
  destruct (Ascii.eqb_spec c "`") as [->|H4];
    [by rewrite ?string_app_nil_l, ?string_app_nil_r|].
  rewrite !string_app_nil_l.
  destruct c as [[] [] [] [] [] [] [] []]; done.
Qed.

Lemma display_loop_out bufs : forall w,
  display_loop cfg bufs w =
    Return tt (set_out (out w +:+ concat_strings (map (render_line cfg) bufs)) w).
Proof.
  induction bufs as [|buf bufs IH]; intros w.
  - simpl. unfold ret. by rewrite string_app_nil_r, set_out_same.
  - cbn [display_loop map concat_strings fold_right]. unfold bind, print.
    rewrite IH. simpl. rewrite display_line_render_line.
    by rewrite set_out_twice, string_app_assoc.
Qed.

Lemma page_file_eq page_path :
  page_file cfg page_path =
    HOME cfg +:+ PAGES_PATH cfg +:+ PAGES_LANG cfg +:+ "/" +:+ page_path.
Proof. unfold page_file, language_root. by rewrite !string_app_assoc. Qed.

(** [display_page] once the Page Locator has given a path. *)
Lemma display_page_found q w page_path w1 :
  find_page cfg q w = Return (Some page_path) w1 ->
  display_page cfg q w =
    match files w1 !! page_file cfg page_path with
    | Some page =>
        Return tt (set_out (out w1 +:+ concat_strings
                              (map (render_line cfg) (read_lines BUF_SIZE page)))
                           (opening (page_file cfg page_path) w1))
    | None => Fault
    end.
Proof.
  intros Hfind. unfold display_page, bind. rewrite Hfind.
  rewrite <- page_file_eq. unfold fopen.
  simpl. fold (opening (page_file cfg page_path) w1).
  destruct (files w1 !! page_file cfg page_path) as [page|]; [|done].
  by rewrite display_loop_out.
Qed.

(** C4 (as amended).  For every page file whose lines, terminator
    included, are shorter than [BUF_SIZE] bytes: a line that is exactly a
    blank line is skipped; a line whose first character is ['#'], ['>'],
    ['-'] or ['`'] is printed between the corresponding style and the
    style reset; every other line is dropped. *)
Theorem display_page_render_filtering (q page_path page : string) (w w1 : world) :
  find_page cfg q w = Return (Some page_path) w1 ->
  files w1 !! page_file cfg page_path = Some page ->
  lines_fit page = true ->
  display_page cfg q w =
    Return tt (set_out (out w1 +:+ render_spec cfg page)
                       (opening (page_file cfg page_path) w1)).
Proof.
  intros Hfind Hpage Hfit.
  rewrite (display_page_found _ _ _ _ Hfind), Hpage.
  unfold render_spec. rewrite read_lines_split; [done|].
  apply List.Forall_forall. intros l Hin. unfold lines_fit in Hfit.
  rewrite forallb_forall in Hfit. by apply Nat.ltb_lt, Hfit.
Qed.

End Renderer.

(** The page of five lines renders as three styled lines: the heading,
    the description and the command. *)
Lemma display_page_render_filtering_witness :
  let w := world_with_page sample_page in
  let w1 := opening (index_path sample_cfg) w in
  find_page sample_cfg "foo" w = Return (Some "linux/foo.md") w1
  /\ files w1 !! page_file sample_cfg "linux/foo.md" = Some sample_page
  /\ lines_fit sample_page = true
  /\ display_page sample_cfg "foo" w =
       Return tt
         (set_out (HEADING_STYLE sample_cfg +:+ "# Title" +:+ nl +:+ RESET_STYLING
                   +:+ SUBHEADING_STYLE sample_cfg +:+ "> desc" +:+ nl +:+ RESET_STYLING
                   +:+ COMMAND_STYLE sample_cfg +:+ "`cmd`" +:+ nl +:+ RESET_STYLING)
                  (opening (page_file sample_cfg "linux/foo.md") w1)).
Proof.
  intros w w1.
  split; [vm_compute; reflexivity|].
  split; [vm_compute; reflexivity|].
  split; [vm_compute; reflexivity|].
  exact (display_page_render_filtering sample_cfg "foo" "linux/foo.md"
           sample_page w w1
           ltac:(vm_compute; reflexivity) ltac:(vm_compute; reflexivity)
           ltac:(vm_compute; reflexivity)).
Defined.

(** The rules do not hold line by line for every page file.  Of a
    heading of 1025 bytes only the first 1023 are printed between style
    and reset, and its last character and newline are lost; of a plain
    line of 1039 bytes the second buffer starts with ['#'] and is printed
    as a heading, although the line is to be dropped. *)
Lemma render_filtering_needs_short_lines :
  (exists w',
     display_page sample_cfg "foo" (world_with_page long_heading_page)
       = Return tt w'
     /\ render_spec sample_cfg long_heading_page
        = HEADING_STYLE sample_cfg +:+ long_heading_page +:+ RESET_STYLING
     /\ out w' = HEADING_STYLE sample_cfg +:+ "#" +:+ repeat_char "x" 1022
                 +:+ RESET_STYLING
     /\ out w' <> render_spec sample_cfg long_heading_page)
  /\ (exists w',
        display_page sample_cfg "foo" (world_with_page long_plain_page)
          = Return tt w'
        /\ render_spec sample_cfg long_plain_page = ""
        /\ out w' = HEADING_STYLE sample_cfg +:+ "# not a heading" +:+ nl
                    +:+ RESET_STYLING).
Proof.
  split.
  - eexists. split; [vm_compute; reflexivity|].
    split; [vm_compute; reflexivity|].
    split; [vm_compute; reflexivity|].
    vm_compute. discriminate.
  - eexists. split; [vm_compute; reflexivity|].
    split; vm_compute; reflexivity.
Qed.

(** ** Listing the pages, and a page whose file is gone *)

Section ListingAndMissingPage.

Variable cfg : config.

(** Whatever the index holds, [list_pages] empties it and prints
    nothing: the stream it reads from was opened with mode ["w"]. *)
Lemma list_pages_any_index w :
  writable w (index_path cfg) = true ->
  list_pages cfg w =
    Return tt (with_file (index_path cfg) "" (opening (index_path cfg) w)).
Proof.
  intros Hw. unfold list_pages, open_index, bind, fopen.
  fold (index_path cfg). simpl. by rewrite Hw.
Qed.

(** [display_page] when the file of the located page cannot be opened:
    [fgets] is handed the [NULL] stream. *)
Lemma display_page_missing_file q w page_path w1 :
  find_page cfg q w = Return (Some page_path) w1 ->
  files w1 !! page_file cfg page_path = None ->
  display_page cfg q w = Fault.
Proof. intros Hfind Hnone. by rewrite (display_page_found _ _ _ _ _ Hfind), Hnone. Qed.

End ListingAndMissingPage.

(** The loop of [list_pages] prints the page names without platform when
    it is given the lines of the index. *)
Example list_loop_prints_names :
  exists w',
    list_loop (read_lines BUF_SIZE two_platforms) (sample_world ∅) = Return tt w'
    /\ out w' = "foo.md" +:+ nl +:+ "foo.md" +:+ nl.
Proof. eexists. split; vm_compute; reflexivity. Qed.

(** C2 (defect of the code).  With the index [linux/foo.md],
    [common/foo.md], the invocation [tldr -l] ends with status 0 but
    prints no page name, and the index file is left empty. *)
Theorem list_pages_empties_index :
  exists w',
    run sample_cfg ["tldr"; "-l"] (world_with_index two_platforms) = Ended 0 w'
    /\ out w' = ""
    /\ files w' !! index_path sample_cfg = Some "".
Proof. eexists. repeat split; vm_compute; reflexivity. Qed.

(** C5 (defect of the code).  With [linux/foo.md] in the index and no
    such file under the language root, the Page Locator resolves the page
    and [tldr foo] crashes on the null stream: no diagnostic is printed
    and no exit status is chosen by the program. *)
Theorem display_page_unopened_file_crashes :
  find_page sample_cfg "foo" (world_with_index two_platforms)
    = Return (Some "linux/foo.md")
             (opening (index_path sample_cfg) (world_with_index two_platforms))
  /\ files (world_with_index two_platforms)
       !! page_file sample_cfg "linux/foo.md" = None
  /\ run sample_cfg ["tldr"; "foo"] (world_with_index two_platforms) = Crashed.
Proof. repeat split; vm_compute; reflexivity. Qed.

(** ** The Archive Extractor *)

Section Extractor.

Variable cfg : config.

Lemma prefix_app a r : String.prefix a (a +:+ r) = true.
Proof.
  induction a as [|c a IH]; [by destruct r|].
  rewrite string_app_cons. simpl. by destruct (ascii_dec c c).
Qed.

Lemma prefix_inv a : forall b, String.prefix a b = true -> exists r, b = a +:+ r.
Proof.
  induction a as [|c a IH]; intros b H; [by exists b|].
  destruct b as [|d b]; [done|]. simpl in H.
  destruct (ascii_dec c d) as [->|]; [|done].
  destruct (IH b H) as [r ->]. by exists r.
Qed.

(** [strncmp] over the length of its second argument is the prefix test. *)
Lemma strncmp_eq_prefix b : forall a,
  strncmp_eq a b (String.length b) = String.prefix b a.
Proof.
  unfold strncmp_eq. induction b as [|c b IH]; intros a.
  - by destruct a.
  - destruct a as [|d a]; [done|]. simpl.
    rewrite IH. destruct (ascii_dec c d) as [->|Hne].
    + by rewrite Ascii.eqb_refl.
    + destruct (Ascii.eqb_spec d c); congruence.
Qed.

Lemma set_files_same w : set_files (files w) w = w.
Proof. by destruct w. Qed.

(** The first loop stops right after the first entry named as the root. *)
Lemma seek_root_found root before e tail :
  Forall (fun e' => pathname e' <> root) before ->
  pathname e = root ->
  seek_root root (before ++ e :: tail) = Some tail.
Proof.
  intros Hbefore He. induction Hbefore as [|e' before Hne _ IH]; simpl.
  - unfold strcmp_eq. by rewrite He, String.eqb_refl.
  - unfold strcmp_eq. by destruct (String.eqb_spec (pathname e') root).
Qed.

(** Without such an entry it runs to the end of the archive. *)
Lemma seek_root_absent root ar :
  Forall (fun e => pathname e <> root) ar -> seek_root root ar = None.
Proof.
  induction 1 as [|e ar Hne _ IH]; [done|]. simpl.
  unfold strcmp_eq. by destruct (String.eqb_spec (pathname e) root).
Qed.

Lemma archive_root_slash rel :
  exists p, strchr (archive_root cfg +:+ rel) slash = Some p.
Proof.
  unfold archive_root. rewrite !string_app_assoc.
  destruct (strchr ("tldr-master" +:+ PAGES_LANG cfg) slash) as [p|] eqn:Hp.
  - rewrite <- string_app_assoc. rewrite (strchr_app_some _ _ _ _ Hp). by eexists.
  - rewrite <- !string_app_assoc, (string_app_assoc _ "/" rel).
    rewrite (strchr_app_none _ _ _ Hp). rewrite string_app_cons, strchr_head. by eexists.
Qed.

(** The second loop extracts the entries under the root up to the first
    entry elsewhere, or up to the end of the archive. *)
Lemma extract_loop_run run rest : forall w,
  Forall (fun e => under_root cfg e = true) run ->
  match rest with [] => True | e :: _ => under_root cfg e = false end ->
  Forall (fun e => writable w (destination cfg e) = true) run ->
  extract_loop cfg (archive_root cfg) (run ++ rest) w =
    Return tt (set_files (foldl (write_entry cfg) (files w) run) w).
Proof.
  induction run as [|e run IH]; intros w Hrun Hrest Hw.
  - simpl. rewrite set_files_same. destruct rest as [|e rest]; [done|].
    simpl. rewrite strncmp_eq_prefix. fold (under_root cfg e). by rewrite Hrest.
  - apply Forall_cons in Hrun as [He Hrun]. apply Forall_cons in Hw as [Hwe Hw].
    cbn [app extract_loop foldl]. rewrite strncmp_eq_prefix.
    fold (under_root cfg e). rewrite He. cbn [negb].
    destruct (prefix_inv _ _ He) as [rel Hrel].
    destruct (archive_root_slash rel) as [p Hp]. rewrite <- Hrel in Hp.
    unfold destination in Hwe. rewrite Hp in Hwe. simpl in Hwe.
    rewrite Hp. unfold bind, archive_read_extract. rewrite Hwe.
    unfold write_entry, destination. rewrite Hp. cbn [default].
    destruct (contents e) as [data|].
    + rewrite IH; [done|done|done|]. done.
    + rewrite IH; done.
Qed.

Lemma lacks_root_Forall ar :
  lacks_root cfg ar = true ->
  Forall (fun e => pathname e <> archive_root cfg) ar.
Proof.
  unfold lacks_root. intros H. apply List.Forall_forall. intros e Hin.
  rewrite forallb_forall in H. specialize (H e Hin).
  apply negb_true_iff in H. by apply String.eqb_neq.
Qed.

Lemma forallb_Forall {A} (f : A -> bool) (l : list A) :
  forallb f l = true -> Forall (fun x => f x = true) l.
Proof.
  intros H. apply List.Forall_forall. intros x Hin.
  rewrite forallb_forall in H. by apply H.
Qed.

Lemma extract_pages_unfold w ar :
  bundle w = Some ar ->
  extract_pages cfg w =
    match seek_root (archive_root cfg) ar with
    | Some rest =>
        extract_loop cfg (archive_root cfg) rest (opening (PAGES_TMP cfg) w)
    | None => Fault
    end.
Proof.
  intros Hb. unfold extract_pages, bind, open_archive. rewrite Hb.
  fold (archive_root cfg). by destruct (seek_root _ _).
Qed.

(** The path of an entry under the root loses its first component only:
    it lands under the language root of the cache. *)
Lemma destination_under_root lang rel data :
  PAGES_LANG cfg = String slash lang ->
  destination cfg (Entry (archive_root cfg +:+ rel) data)
  = language_root cfg +:+ "/" +:+ rel.
Proof.
  intros Hlang. unfold destination, archive_root, language_root.
  cbn [pathname]. rewrite Hlang, !string_app_assoc.
  rewrite (strchr_app_none "tldr-master") by reflexivity.
  by rewrite string_app_cons, strchr_head.
Qed.

(** C3 (as amended).  When the archive has an entry named exactly as the
    synthesized root, and the first such entry is followed by a run of
    entries with the root as prefix that ends with the archive or before
    an entry without the prefix, [extract_pages] writes exactly the
    entries of that run and ends without error; each goes to the
    destination root followed by its path from the first ['/'] on, so only
    the top-level directory of the archive is dropped and the entry lands
    under the language root. *)
Theorem extract_pages_scoping (w : world) (before run rest : archive)
    (root : archive_entry) (lang : string) :
  bundle w = Some (before ++ root :: run ++ rest) ->
  lacks_root cfg before = true ->
  pathname root = archive_root cfg ->
  forallb (under_root cfg) run = true ->
  run_ends cfg rest = true ->
  forallb (fun e => writable w (destination cfg e)) run = true ->
  PAGES_LANG cfg = String slash lang ->
  extract_pages cfg w =
    Return tt (set_files (foldl (write_entry cfg) (files w) run)
                         (opening (PAGES_TMP cfg) w))
  /\ Forall (fun e => exists rel,
                 pathname e = archive_root cfg +:+ rel
                 /\ destination cfg e = language_root cfg +:+ "/" +:+ rel) run.
Proof.
  intros Hb Hbefore Hroot Hrun Hrest Hw Hlang. split.
  - rewrite (extract_pages_unfold _ _ Hb).
    rewrite (seek_root_found _ _ _ _ (lacks_root_Forall _ Hbefore) Hroot).
    apply (extract_loop_run run rest (opening (PAGES_TMP cfg) w)).
    + by apply forallb_Forall.
    + unfold run_ends in Hrest. destruct rest; [done|].
      by apply negb_true_iff.
    + by apply (forallb_Forall (fun e => writable w (destination cfg e))).
  - apply forallb_Forall in Hrun. eapply Forall_impl; [exact Hrun|].
    intros [path data] He. destruct (prefix_inv _ _ He) as [rel Hrel].
    simpl in Hrel. subst path. exists rel. split; [done|].
    by apply (destination_under_root lang).
Qed.

(** When no entry of the archive is named exactly as the synthesized
    root, the first loop reads to the end of the archive and the second
    loop faults at once. *)
Lemma extract_pages_rootless (w : world) (ar : archive) :
  bundle w = Some ar ->
  lacks_root cfg ar = true ->
  extract_pages cfg w = Fault.
Proof.
  intros Hb Hlacks. rewrite (extract_pages_unfold _ _ Hb).
  by rewrite (seek_root_absent _ _ (lacks_root_Forall _ Hlacks)).
Qed.

End Extractor.

Lemma extract_pages_scoping_witness :
  let w := world_with_bundle sample_bundle in
  bundle w = Some ([Entry "tldr-master/" None;
                    Entry "tldr-master/README.md" (Some "readme")]
                   ++ Entry "tldr-master/pages/" None
                   :: [Entry "tldr-master/pages/linux/" None;
                       Entry "tldr-master/pages/linux/foo.md" (Some "# foo")]
                   ++ [Entry "tldr-master/pages.de/" None;
                       Entry "tldr-master/pages.de/linux/foo.md" (Some "# foo (de)")])
  /\ extract_pages sample_cfg w =
       Return tt (set_files {[ "/home/u/.cache/tldr/pages/linux/foo.md" := "# foo" ]}
                            (opening (PAGES_TMP sample_cfg) w)).
Proof.
  intros w. split; [reflexivity|].
  refine (proj1 (extract_pages_scoping sample_cfg w
            [Entry "tldr-master/" None;
             Entry "tldr-master/README.md" (Some "readme")]
            [Entry "tldr-master/pages/linux/" None;
             Entry "tldr-master/pages/linux/foo.md" (Some "# foo")]
            [Entry "tldr-master/pages.de/" None;
             Entry "tldr-master/pages.de/linux/foo.md" (Some "# foo (de)")]
            (Entry "tldr-master/pages/" None) "pages"
            _ _ _ _ _ _ _)); vm_compute; reflexivity.
Defined.

(** C8.  A bundle without the selected subtree, so that no entry is
    named as the synthesized root: the first loop of [extract_pages]
    reads to the end of the archive, the second loop asks for one more
    header, takes its body on the refusal, and the process is killed.
    Extraction does not complete, and it reports nothing. *)
Theorem extract_pages_missing_subtree_crashes :
  lacks_root sample_cfg other_language_bundle = true
  /\ seek_root (archive_root sample_cfg) other_language_bundle = None
  /\ extract_pages sample_cfg (world_with_bundle other_language_bundle) = Fault.
Proof. repeat split; vm_compute; reflexivity. Qed.

(** Extraction does not drop the top two components of a path, and it
    does not extract every contiguous run under the root.  The entry
    [tldr-master/pages/linux/foo.md] is written below the destination
    root as [pages/linux/foo.md], not as [linux/foo.md]; and a bundle
    without an entry for the root directory itself is not extracted,
    although its entries under the root are contiguous: the first loop
    looks for the root itself, and the call does not return. *)
Lemma extraction_keeps_second_component :
  (exists w',
     extract_pages sample_cfg (world_with_bundle sample_bundle) = Return tt w'
     /\ files w' !! "/home/u/.cache/tldr/pages/linux/foo.md" = Some "# foo"
     /\ files w' !! "/home/u/.cache/tldr/linux/foo.md" = None)
  /\ (forallb (under_root sample_cfg)
              [Entry "tldr-master/pages/linux/foo.md" (Some "# foo")] = true
      /\ forall w',
          extract_pages sample_cfg (world_with_bundle rootless_bundle)
            <> Return tt w').
Proof.
  split.
  - eexists. repeat split; vm_compute; reflexivity.
  - split; [vm_compute; reflexivity|].
    intros w'. by vm_compute.
Qed.

(** ** The Index Builder *)

Section IndexBuilder.

Variable cfg : config.

Lemma tree_nested_ind (P : tree -> Prop) :
  P File -> P Other ->
  (forall entries, Forall (fun e => P (snd e)) entries -> P (Dir entries)) ->
  forall t, P t.
Proof.
  intros HF HO HD. fix IH 1. intros [|entries|]; [exact HF| |exact HO].
  apply HD. induction entries as [|e es IHes]; constructor; [apply IH|exact IHes].
Qed.

Lemma flat_map_map {A B C} (f : B -> C) (g : A -> list B) (l : list A) :
  map f (flat_map g l) = flat_map (fun a => map f (g a)) l.
Proof. induction l as [|a l IH]; [done|]. simpl. by rewrite List.map_app, IH. Qed.

Lemma flat_map_ext_Forall {A B} (f g : A -> list B) (l : list A) :
  Forall (fun a => f a = g a) l -> flat_map f l = flat_map g l.
Proof. induction 1 as [|a l Ha _ IH]; [done|]. simpl. by rewrite Ha, IH. Qed.

(** Walking [t] under a longer name gives the same visits, renamed. *)
Lemma ftw_visits_below dir t : forall name,
  ftw_visits (dir +:+ "/" +:+ name) t = map (below dir) (ftw_visits name t).
Proof.
  induction t as [| |entries IH] using tree_nested_ind; intros name; [done|done|].
  cbn [ftw_visits map]. f_equal. rewrite flat_map_map.
  apply flat_map_ext_Forall. eapply Forall_impl; [exact IH|].
  intros e He. cbn beta. rewrite <- He. by rewrite !string_app_assoc.
Qed.

(** The regular files are the visits flagged [FTW_F]. *)
Lemma regular_files_visits t : forall name,
  regular_files name t = map fst (List.filter is_file (ftw_visits name t)).
Proof.
  induction t as [| |entries IH] using tree_nested_ind; intros name; [done|done|].
  cbn [regular_files ftw_visits List.filter is_file snd].
  induction IH as [|e es He _ IHes]; [done|].
  cbn [flat_map]. rewrite List.filter_app, List.map_app, <- He. f_equal. exact IHes.
Qed.

(** [strstr] finds the needle where it first occurs. *)
Lemma strstr_cons c h n :
  strstr (String c h) n =
    if String.prefix n (String c h) then Some (String c h) else strstr h n.
Proof. reflexivity. Qed.

Lemma strstr_prefix h n : String.prefix n h = true -> strstr h n = Some h.
Proof.
  intros H. destruct h as [|c h].
  - change (strstr "" n) with (if String.prefix n "" then Some "" else None).
    by rewrite H.
  - by rewrite strstr_cons, H.
Qed.

Lemma prefix_app_long n : forall x rest,
  String.length n <= String.length x ->
  String.prefix n (x +:+ rest) = String.prefix n x.
Proof.
  induction n as [|c n IH]; intros x rest Hlen.
  - destruct x; [by destruct rest|done].
  - destruct x as [|d x]; [simpl in Hlen; lia|].
    rewrite string_app_cons. simpl. destruct (ascii_dec c d); [|done].
    apply IH. simpl in Hlen. lia.
Qed.

(** An occurrence found in [pre ++ n] is the one found when more text
    follows. *)
Lemma strstr_extend n rest : forall pre,
  strstr (pre +:+ n +:+ rest) n
  = option_map (fun found => found +:+ rest) (strstr (pre +:+ n) n).
Proof.
  induction pre as [|c pre IH].
  - rewrite !string_app_nil_l. rewrite (strstr_prefix _ _ (prefix_app n rest)).
    rewrite (strstr_prefix n n); [done|].
    rewrite <- (string_app_nil_r n) at 2. apply prefix_app.
  - rewrite !string_app_cons, !strstr_cons.
    replace (String c (pre +:+ n +:+ rest)) with (String c (pre +:+ n) +:+ rest)
      by (by rewrite string_app_cons, string_app_assoc).
    rewrite prefix_app_long by (simpl; rewrite string_length_app; lia).
    destruct (String.prefix n (String c (pre +:+ n))); [done|exact IH].
Qed.

Lemma config_ok_inv :
  config_ok cfg = true ->
  exists lang,
    PAGES_LANG cfg = String slash lang /\ strchr lang slash = None
    /\ strstr (language_root cfg) (PAGES_LANG cfg) = Some (PAGES_LANG cfg).
Proof.
  unfold config_ok. destruct (PAGES_LANG cfg) as [|c lang] eqn:Hlang; [done|].
  intros H. apply andb_prop in H as [H Hstr]. apply andb_prop in H as [Hc Hsl].
  apply Ascii.eqb_eq in Hc as ->. apply negb_true_iff, has_char_false in Hsl.
  exists lang. split; [done|]. split; [done|].
  destruct (strstr _ _) as [found|]; [|done].
  by apply String.eqb_eq in Hstr as ->.
Qed.

Lemma with_file_same path data w :
  files w !! path = Some data -> with_file path data w = w.
Proof.
  intros H. unfold with_file. rewrite insert_id by done. by destruct w.
Qed.

Lemma with_file_twice path a b w :
  with_file path b (with_file path a w) = with_file path b w.
Proof. unfold with_file. simpl. by rewrite insert_insert_eq. Qed.

(** The callback on a regular file below the language root appends the
    path relative to that root. *)
Lemma ftw_callback_file fp rel w old :
  config_ok cfg = true ->
  files w !! f_path fp = Some old ->
  ftw_callback cfg fp (language_root cfg +:+ "/" +:+ rel) FTW_F w
  = Return 0%Z (with_file (f_path fp) (old +:+ rel +:+ nl) w).
Proof.
  intros (lang & Hlang & Hsl & Hstr)%config_ok_inv Hold.
  unfold ftw_callback.
  assert (strstr (language_root cfg +:+ "/" +:+ rel) (PAGES_LANG cfg)
          = Some (PAGES_LANG cfg +:+ "/" +:+ rel)) as ->.
  { unfold language_root in *. rewrite <- (string_app_assoc (HOME cfg)) in *.
    rewrite string_app_assoc. rewrite strstr_extend, Hstr. done. }
  rewrite Hlang, string_app_cons. cbn [ptr_succ].
  rewrite (strchr_app_none _ _ _ Hsl), string_app_cons, strchr_head.
  cbn [ptr_succ]. rewrite string_app_nil_l.
  unfold bind, fprint, ret. rewrite Hold. done.
Qed.

Lemma ftw_calls_below fp visits : forall w old,
  config_ok cfg = true ->
  files w !! f_path fp = Some old ->
  ftw_calls (ftw_callback cfg fp) (map (below (language_root cfg)) visits) w
  = Return 0%Z
      (with_file (f_path fp)
         (old +:+ unlines (map fst (List.filter is_file visits))) w).
Proof.
  induction visits as [|[rel fl] visits IH]; intros w old Hcfg Hold.
  - simpl. unfold ret. by rewrite string_app_nil_r, with_file_same.
  - cbn [map below fst snd ftw_calls]. unfold bind.
    destruct fl.
    + rewrite (ftw_callback_file _ _ _ _ Hcfg Hold). cbn [Z.eqb].
      rewrite (IH _ (old +:+ rel +:+ nl) Hcfg)
        by (unfold with_file; simpl; apply lookup_insert_eq).
      rewrite with_file_twice. cbn [List.filter is_file snd map fst unlines fold_right].
      by rewrite !string_app_assoc.
    + simpl. by apply IH.
    + simpl. by apply IH.
Qed.

Lemma relative_files_visits entries :
  relative_files (Dir entries)
  = map fst (List.filter is_file
               (flat_map (fun e => ftw_visits (fst e) (snd e)) entries)).
Proof.
  unfold relative_files. induction entries as [|e es IH]; [done|].
  cbn [flat_map]. by rewrite List.filter_app, List.map_app, <- regular_files_visits, IH.
Qed.

(** The Index Builder over a directory: whatever the index held, it now
    holds one line for each regular file below the language root, the
    path of the file relative to that root, in the order of the walk. *)
Lemma index_pages_dir w entries :
  config_ok cfg = true ->
  writable w (index_path cfg) = true ->
  cache w = Some (Dir entries) ->
  index_pages cfg w
  = Return tt (with_file (index_path cfg)
                 (unlines (relative_files (Dir entries)))
                 (opening (index_path cfg) w)).
Proof.
  intros Hcfg Hw Hcache.
  unfold index_pages, open_index, bind, fopen. fold (index_path cfg).
  fold (language_root cfg). simpl. rewrite Hw. unfold ret, ftw. simpl.
  rewrite Hcache. cbn [ftw_visits ftw_calls]. unfold bind at 1. simpl.
  rewrite (flat_map_ext_Forall _
             (fun e => map (below (language_root cfg))
                           (ftw_visits (fst e) (snd e))))
    by (apply List.Forall_forall; intros e _; apply ftw_visits_below).
  rewrite <- flat_map_map.
  rewrite (ftw_calls_below (Stream (index_path cfg) "w" "") _ _ "" Hcfg)
    by (simpl; apply lookup_insert_eq).
  rewrite string_app_nil_l, <- relative_files_visits. simpl.
  fold (opening (index_path cfg) w).
  exact (f_equal (Return tt)
           (with_file_twice (index_path cfg) "" _ (opening (index_path cfg) w))).
Qed.

End IndexBuilder.

(** ** Rebuilding the index, and looking up what was written *)

Section IndexClaims.

Variable cfg : config.




(** The lines of a text written line by line are the lines written. *)
Lemma split_lines_line l rest :
  strchr l newline = None ->
  split_lines (l +:+ nl +:+ rest) = (l +:+ nl) :: split_lines rest.
Proof.
  induction l as [|c l IH]; intros Hl.
  - reflexivity.
  - simpl in Hl. destruct (Ascii.eqb c newline) eqn:Hc; [done|].
    rewrite !string_app_cons. cbn [split_lines]. by rewrite Hc, (IH Hl).
Qed.

Lemma index_lines_fit_inv lines :
  index_lines_fit lines = true ->
  Forall (fun l => strchr l newline = None
                   /\ String.length l + 1 < BUF_SIZE) lines.
Proof.
  intros H. apply forallb_Forall in H. eapply Forall_impl; [exact H|].
  intros l Hl. cbn beta in Hl. apply andb_prop in Hl as [Hnl Hlen].
  apply negb_true_iff, has_char_false in Hnl. by apply Nat.ltb_lt in Hlen.
Qed.

Lemma split_lines_unlines lines :
  Forall (fun l => strchr l newline = None) lines ->
  split_lines (unlines lines) = map (fun l => l +:+ nl) lines.
Proof.
  induction 1 as [|l lines Hl _ IH]; [done|].
  cbn [unlines fold_right map]. fold (unlines lines).
  by rewrite (split_lines_line _ _ Hl), IH.
Qed.

Lemma text_lines_unlines lines :
  Forall (fun l => strchr l newline = None) lines ->
  text_lines (unlines lines) = lines.
Proof.
  intros H. unfold text_lines. rewrite (split_lines_unlines _ H).
  induction H as [|l lines Hl _ IH]; [done|].
  cbn [map]. by rewrite (strip_nl_line _ Hl), IH.
Qed.

Lemma index_ok_for_unlines q lines :
  index_lines_fit lines = true ->
  forallb (fun l => has_char slash q || has_char slash l) lines = true ->
  index_ok_for q (unlines lines) = true.
Proof.
  intros H%index_lines_fit_inv Hsl. unfold index_ok_for.
  rewrite split_lines_unlines
    by (eapply Forall_impl; [exact H|]; by intros l [? _]).
  induction H as [|l lines [Hnl Hlen] _ IH]; [done|].
  cbn [forallb] in Hsl. apply andb_prop in Hsl as [Hl Hsl].
  cbn [map forallb]. rewrite (IH Hsl), andb_true_r. unfold line_ok_for.
  assert (has_char slash q || has_char slash (l +:+ nl) = true) as ->.
  { apply orb_true_iff in Hl as [->|Hl]; [done|].
    unfold has_char in *. destruct (strchr l slash) as [p|] eqn:Hp; [|done].
    by rewrite (strchr_app_some _ nl _ _ Hp), orb_true_r. }
  unfold has_char. rewrite (strchr_app_none _ nl _ Hnl).
  unfold nl at 1. rewrite strchr_head. cbn [andb].
  apply Nat.ltb_lt. rewrite string_length_app. simpl. lia.
Qed.

(** The first line equal to a line of the list is that line. *)
Lemma find_spec_whole q lines :
  has_char slash q = true ->
  In (normalized q) lines ->
  find_spec q lines = Some (normalized q).
Proof.
  intros Hq Hin. unfold find_spec.
  destruct (find (matches q) lines) as [l|] eqn:Hfind.
  - apply find_some in Hfind as [_ Hm]. unfold matches in Hm.
    rewrite Hq in Hm. by apply String.eqb_eq in Hm as ->.
  - apply (find_none _ _ Hfind) in Hin. unfold matches in Hin.
    by rewrite Hq, String.eqb_refl in Hin.
Qed.

(** The first line with the file name of the query is the only line
    with that file name. *)
Lemma find_spec_filename q line lines :
  has_char slash q = false ->
  In line lines ->
  after_first_slash line = Some (normalized q) ->
  (forall l, In l lines -> after_first_slash l = Some (normalized q) -> l = line) ->
  find_spec q lines = Some line.
Proof.
  intros Hq Hin Hline Huniq. unfold find_spec.
  destruct (find (matches q) lines) as [l|] eqn:Hfind.
  - apply find_some in Hfind as [Hl Hm]. unfold matches in Hm.
    rewrite Hq in Hm. destruct (after_first_slash l) as [f|] eqn:Hf; [|done].
    apply String.eqb_eq in Hm as ->. by rewrite (Huniq l Hl Hf).
  - apply (find_none _ _ Hfind) in Hin. unfold matches in Hin.
    by rewrite Hq, Hline, String.eqb_refl in Hin.
Qed.

(** C6 (as amended).  When the paths the Index Builder writes hold no
    newline and are shorter than [BUF_SIZE] bytes with their terminator,
    then for every line [platform/name.md] it writes, [find_page] on
    [platform/name] returns that line; and [find_page] on [name] returns
    it too when every line written has a ['/'], [platform] and [name]
    have none, and no other line of the index has the file name
    [name.md]. *)
Theorem index_round_trip (w : world) (entries : list (string * tree))
    (platform name : string) :
  config_ok cfg = true ->
  writable w (index_path cfg) = true ->
  cache w = Some (Dir entries) ->
  index_lines_fit (relative_files (Dir entries)) = true ->
  In (platform +:+ "/" +:+ name +:+ ".md") (relative_files (Dir entries)) ->
  exists w1,
    index_pages cfg w = Return tt w1
    /\ find_page cfg (platform +:+ "/" +:+ name) w1
       = Return (Some (platform +:+ "/" +:+ name +:+ ".md"))
                (opening (index_path cfg) w1)
    /\ (forallb (has_char slash) (relative_files (Dir entries)) = true ->
        has_char slash platform = false ->
        has_char slash name = false ->
        (forall l, In l (relative_files (Dir entries)) ->
                   after_first_slash l = Some (name +:+ ".md") ->
                   l = platform +:+ "/" +:+ name +:+ ".md") ->
        find_page cfg name w1
        = Return (Some (platform +:+ "/" +:+ name +:+ ".md"))
                 (opening (index_path cfg) w1)).
Proof.
  intros Hcfg Hw Hcache Hfit Hin.
  set (lines := relative_files (Dir entries)) in *.
  eexists. split; [by apply index_pages_dir|]. fold lines.
  assert (Hnl : Forall (fun l => strchr l newline = None) lines).
  { eapply Forall_impl; [exact (index_lines_fit_inv _ Hfit)|].
    by intros l [? _]. }
  assert (Hfind : forall q,
    forallb (fun l => has_char slash q || has_char slash l) lines = true ->
    find_page cfg q (with_file (index_path cfg) (unlines lines)
                               (opening (index_path cfg) w))
    = Return (find_spec q lines)
             (opening (index_path cfg)
                (with_file (index_path cfg) (unlines lines)
                           (opening (index_path cfg) w)))).
  { intros q Hq. rewrite <- (text_lines_unlines lines Hnl) at 2.
    apply find_page_index_ok_for;
      [apply lookup_insert_eq|by apply index_ok_for_unlines]. }
  assert (Hq : has_char slash (platform +:+ "/" +:+ name) = true).
  { apply has_char_true. destruct (strchr platform slash) as [p|] eqn:Hp.
    - by rewrite (strchr_app_some _ _ _ _ Hp).
    - by rewrite (strchr_app_none _ _ _ Hp), string_app_cons, strchr_head. }
  split.
  - rewrite Hfind
      by (apply forallb_forall; intros l _; by rewrite Hq).
    f_equal.
    replace (platform +:+ "/" +:+ name +:+ ".md")
      with (normalized (platform +:+ "/" +:+ name)) in *
      by (unfold normalized; by rewrite !string_app_assoc).
    by apply find_spec_whole.
  - intros Hsl Hplat%has_char_false Hname Huniq.
    rewrite Hfind
      by (apply forallb_forall; intros l Hl; rewrite forallb_forall in Hsl;
          by rewrite (Hsl l Hl), orb_true_r).
    f_equal. apply find_spec_filename; [done|done| |exact Huniq].
    unfold after_first_slash.
    by rewrite (strchr_app_none _ _ _ Hplat), string_app_cons, strchr_head.
Qed.

End IndexClaims.



Lemma index_round_trip_witness :
  let w := world_with_cache sample_cache in
  index_lines_fit (relative_files sample_cache) = true
  /\ In "linux/bar.md" (relative_files sample_cache)
  /\ forallb (has_char slash) (relative_files sample_cache) = true
  /\ exists w1,
      index_pages sample_cfg w = Return tt w1
      /\ find_page sample_cfg "linux/bar" w1
         = Return (Some "linux/bar.md") (opening (index_path sample_cfg) w1)
      /\ find_page sample_cfg "bar" w1
         = Return (Some "linux/bar.md") (opening (index_path sample_cfg) w1).
Proof.
  intros w. split; [vm_compute; reflexivity|].
  split; [vm_compute; tauto|].
  split; [vm_compute; reflexivity|].
  destruct (index_round_trip sample_cfg w
              [ ("linux", Dir [("foo.md", File); ("bar.md", File)]);
                ("common", Dir [("foo.md", File)]) ]
              "linux" "bar"
              ltac:(vm_compute; reflexivity) ltac:(vm_compute; reflexivity)
              ltac:(vm_compute; reflexivity) ltac:(vm_compute; reflexivity)
              ltac:(vm_compute; tauto))
    as (w1 & Hbuild & Hfull & Hname).
  exists w1. split; [exact Hbuild|]. split; [exact Hfull|].
  apply Hname; [vm_compute; reflexivity|reflexivity|reflexivity|].
  intros l Hin Hl. vm_compute in Hin.
  destruct Hin as [<-|[<-|[<-|[]]]]; [discriminate Hl|reflexivity|discriminate Hl].
Defined.

(** The round trip fails for a line the Index Builder writes after the
    line of a regular file right under the language root: [linux/foo.md]
    is written, [foo] is the name of no other page, and the lookup of
    [foo] faults on the line [README.md].  It fails as well for a line
    longer than the buffer of the scan. *)
Lemma round_trip_needs_precondition :
  (exists w1,
     index_pages sample_cfg (world_with_cache stray_file_cache) = Return tt w1
     /\ files w1 !! index_path sample_cfg = Some stray_file_index
     /\ text_lines stray_file_index = ["README.md"; "linux/foo.md"]
     /\ find_page sample_cfg "linux/foo" w1
        = Return (Some "linux/foo.md") (opening (index_path sample_cfg) w1)
     /\ find_page sample_cfg "foo" w1 = Fault)
  /\ (exists w1,
        index_pages sample_cfg (world_with_cache deep_cache) = Return tt w1
        /\ relative_files deep_cache = ["linux/" +:+ deep_name 5 +:+ ".md"]
        /\ find_page sample_cfg ("linux/" +:+ deep_name 5) w1
           = Return None (opening (index_path sample_cfg) w1)).
Proof.
  split.
  - eexists. repeat split; vm_compute; reflexivity.
  - eexists. repeat split; vm_compute; reflexivity.
Qed.

(** * Further properties of the program *)

(** ** What the read loops deliver *)

Section ReadLoop.

Lemma read_upto_shape s : forall k, line_shape (fst (read_upto k s)).
Proof.
  induction s as [|c s IH]; intros k.
  - exists "". split; [done|right]. by destruct k.
  - destruct k as [|k]; [exists ""; split; [done|by right]|]. simpl.
    destruct (Ascii.eqb c newline) eqn:Hc.
    + exists "". split; [done|left]. by apply Ascii.eqb_eq in Hc as ->.
    + specialize (IH k). destruct (read_upto k s) as [b r]. simpl in *.
      destruct IH as (l & Hl & Hb). exists (String c l).
      split; [simpl; by rewrite Hc|]. by destruct Hb as [->| ->]; [left|right].
Qed.

Lemma read_upto_length s : forall k,
  String.length (fst (read_upto k s)) <= k.
Proof.
  induction s as [|c s IH]; intros k; [destruct k; simpl; lia|].
  destruct k as [|k]; [simpl; lia|]. simpl.
  destruct (Ascii.eqb c newline); [simpl; lia|].
  specialize (IH k). destruct (read_upto k s) as [b r]. simpl in *. lia.
Qed.

Lemma read_upto_nonempty k c s : fst (read_upto (S k) (String c s)) <> "".
Proof.
  simpl. destruct (Ascii.eqb c newline); [done|].
  by destruct (read_upto k s).
Qed.

Lemma read_lines_fuel_buffers n fuel : forall s,
  2 <= n -> Forall (buffer_ok n) (read_lines_fuel fuel n s).
Proof.
  induction fuel as [|fuel IH]; intros s Hn; [constructor|].
  destruct s as [|c s]; [constructor|]. cbn [read_lines_fuel fgets].
  pose proof (read_upto_shape (String c s) (n - 1)) as Hshape.
  pose proof (read_upto_length (String c s) (n - 1)) as Hlen.
  assert (Hne : fst (read_upto (n - 1) (String c s)) <> "").
  { destruct n as [|[|n]]; [lia|lia|].
    replace (S (S n) - 1) with (S n) by lia. apply read_upto_nonempty. }
  destruct (read_upto (n - 1) (String c s)) as [buf rest]. simpl in *.
  constructor; [|by apply IH]. split; [done|]. split; [lia|done].
Qed.

(** X1.  The loop [while (fgets(buf, BUF_SIZE, fp))] comes to the end of
    every file and loses no byte: the buffers it sees, one after the
    other, are the file; each buffer holds between 1 and [BUF_SIZE - 1]
    characters and has no newline except possibly as its last
    character. *)
Theorem read_loop_partitions_file (s : string) :
  concat_strings (read_lines BUF_SIZE s) = s
  /\ Forall (buffer_ok BUF_SIZE) (read_lines BUF_SIZE s).
Proof.
  split.
  - apply read_lines_whole_stream. unfold BUF_SIZE. lia.
  - apply read_lines_fuel_buffers. unfold BUF_SIZE. lia.
Qed.

End ReadLoop.

(** ** The Page Locator on any index *)

Section LocatorAnyIndex.

Variable cfg : config.

Lemma strchr_split s c p :
  strchr s c = Some p -> exists pre, s = pre +:+ p /\ strchr pre c = None.
Proof.
  induction s as [|a s IH]; [done|]. simpl.
  destruct (Ascii.eqb a c) eqn:Ha.
  - intros [= <-]. by exists "".
  - intros (pre & -> & Hpre)%IH. exists (String a pre).
    split; [done|]. simpl. by rewrite Ha.
Qed.

Lemma read_lines_shape s : Forall line_shape (read_lines BUF_SIZE s).
Proof.
  eapply Forall_impl; [apply read_lines_fuel_buffers; unfold BUF_SIZE; lia|].
  by intros buf (_ & _ & ?).
Qed.

(** A buffer equal to the file name the scan compares with is that
    name, newline-free, followed by the newline. *)
Lemma page_filename_buffer pre q :
  line_shape (pre +:+ q +:+ ".md" +:+ nl) ->
  strchr (pre +:+ q +:+ ".md") newline = None
  /\ cut_at (pre +:+ q +:+ ".md" +:+ nl) newline = Some (pre +:+ q +:+ ".md").
Proof.
  intros (l & Hl & Hr).
  assert (Hnl : strchr (pre +:+ q +:+ ".md" +:+ nl) newline <> None).
  { rewrite <- !string_app_assoc. apply strchr_in_suffix.
    unfold nl. by rewrite strchr_head. }
  destruct Hr as [Hr|Hr]; [|by rewrite Hr in Hnl].
  rewrite <- !string_app_assoc in Hr. apply string_app_inv_tail in Hr.
  rewrite !string_app_assoc in Hr. subst l. split; [done|].
  rewrite <- !string_app_assoc. unfold nl. rewrite cut_at_app; [done|].
  by rewrite !string_app_assoc.
Qed.

(** What the scan returns names the page that was asked for. *)
Lemma find_scan_hit_inv q recs line :
  Forall line_shape recs ->
  find_scan q (q +:+ ".md" +:+ nl) recs = Hit line ->
  strchr line newline = None
  /\ match strchr q slash with
     | Some _ => line = q +:+ ".md"
     | None => exists platform,
         strchr platform slash = None /\ line = platform +:+ "/" +:+ q +:+ ".md"
     end.
Proof.
  induction recs as [|r recs IH]; intros Hshape; [done|].
  apply Forall_cons in Hshape as [Hr Hshape]. cbn [find_scan]. unfold strcmp_eq.
  destruct (strchr q slash) as [t|] eqn:Hq.
  - destruct (String.eqb_spec (q +:+ ".md" +:+ nl) r) as [<-|_]; [|by apply IH].
    destruct (page_filename_buffer "" q Hr) as [Hnl Hcut].
    rewrite !string_app_nil_l in *. rewrite Hcut. by intros [= <-].
  - destruct (strchr r slash) as [p|] eqn:Hp; [|done].
    destruct (String.eqb_spec (q +:+ ".md" +:+ nl) (ptr_succ p)) as [Heq|_];
      [|by apply IH].
    destruct (strchr_split _ _ _ Hp) as (pre & -> & Hpre).
    destruct (strchr_starts _ _ _ Hp) as [t ->]. simpl in Heq. subst t.
    change (String slash (q +:+ ".md" +:+ nl)) with ("/" +:+ q +:+ ".md" +:+ nl) in *.
    assert (Hr' : line_shape ((pre +:+ "/") +:+ q +:+ ".md" +:+ nl))
      by (by rewrite string_app_assoc).
    destruct (page_filename_buffer (pre +:+ "/") q Hr') as [Hnl Hcut].
    rewrite (string_app_assoc pre "/" (q +:+ ".md" +:+ nl)) in Hcut.
    rewrite Hcut. intros [= <-]. rewrite !string_app_assoc in *.
    split; [done|]. by exists pre.
Qed.

(** How [find_page] ends when it returns. *)
Lemma find_page_return_inv q w r w' :
  find_page cfg q w = Return r w' ->
  exists idx,
    files w !! index_path cfg = Some idx
    /\ w' = opening (index_path cfg) w
    /\ match r with
       | Some line =>
           find_scan q (q +:+ ".md" +:+ nl) (read_lines BUF_SIZE idx) = Hit line
       | None =>
           find_scan q (q +:+ ".md" +:+ nl) (read_lines BUF_SIZE idx) = Miss
       end.
Proof.
  destruct (files w !! index_path cfg) as [idx|] eqn:Hidx.
  - rewrite (find_page_unfold _ _ _ _ Hidx).
    destruct (find_scan _ _ _) eqn:Hscan; [| |done].
    + intros [= <- <-]. by exists idx.
    + intros [= <- <-]. by exists idx.
  - destruct (find_page_no_index cfg q w Hidx) as [w1 ->]. done.
Qed.

(** X2.  Whatever the index holds, a path that [find_page] returns names
    the page that was asked for: it is [query.md] when the query has a
    ['/'], and [platform/query.md] for a platform without ['/'] when the
    query has none; it holds no newline; and [find_page] has changed
    nothing but the log of opened files. *)
Theorem find_page_sound (q line : string) (w w' : world) :
  find_page cfg q w = Return (Some line) w' ->
  w' = opening (index_path cfg) w
  /\ has_char newline line = false
  /\ (has_char slash q = true -> line = q +:+ ".md")
  /\ (has_char slash q = false ->
      exists platform,
        has_char slash platform = false
        /\ line = platform +:+ "/" +:+ q +:+ ".md").
Proof.
  intros (idx & _ & -> & Hscan)%find_page_return_inv.
  apply find_scan_hit_inv in Hscan as [Hnl Hline]; [|apply read_lines_shape].
  split; [done|]. split; [by apply has_char_false|].
  unfold has_char. destruct (strchr q slash); split; try done.
  intros _. destruct Hline as (platform & Hp & ->).
  exists platform. by rewrite Hp.
Qed.

Lemma find_scan_whole q t recs :
  strchr q slash = Some t ->
  Forall line_shape recs ->
  find_scan q (q +:+ ".md" +:+ nl) recs =
    if existsb (String.eqb (q +:+ ".md" +:+ nl)) recs
    then Hit (q +:+ ".md") else Miss.
Proof.
  intros Hq. induction 1 as [|r recs Hr _ IH]; [done|].
  cbn [find_scan existsb]. rewrite Hq. unfold strcmp_eq.
  destruct (String.eqb_spec (q +:+ ".md" +:+ nl) r) as [<-|_]; [|exact IH].
  destruct (page_filename_buffer "" q Hr) as [_ Hcut].
  rewrite !string_app_nil_l in Hcut. by rewrite Hcut.
Qed.

(** X3.  A query that names its platform cannot fault the Page Locator,
    whatever the index holds: [find_page] returns [query.md] when one of
    the buffers read from the index is [query.md] with its newline, and
    [NULL] otherwise. *)
Theorem find_page_with_platform (q idx : string) (w : world) :
  files w !! index_path cfg = Some idx ->
  has_char slash q = true ->
  find_page cfg q w =
    Return (if existsb (String.eqb (q +:+ ".md" +:+ nl)) (read_lines BUF_SIZE idx)
            then Some (q +:+ ".md") else None)
           (opening (index_path cfg) w).
Proof.
  intros Hidx Hq. rewrite (find_page_unfold _ _ _ _ Hidx).
  unfold has_char in Hq. destruct (strchr q slash) as [t|] eqn:Ht; [|done].
  rewrite (find_scan_whole q t _ Ht (read_lines_shape idx)).
  by destruct (existsb _ _).
Qed.

(** An argument that is no option is the name of a page to display. *)
Lemma main_display prog q w :
  is_option q = false ->
  main cfg [prog; q] w = bind (display_page cfg q) (fun _ => ret 0%Z) w.
Proof.
  unfold is_option, main, strcmp_eq. intros H.
  apply orb_false_iff in H as [H Hl]. apply orb_false_iff in H as [Hh Hu].
  by rewrite Hh, Hu, Hl.
Qed.

(** X4.  Without an index file, asking for any page ends the program
    with status 1 after one diagnostic on the error stream, the advice
    to run [tldr -u]; nothing is printed on the output stream and no
    other file is tried. *)
Theorem display_without_index (prog q : string) (w : world) :
  files w !! index_path cfg = None ->
  is_option q = false ->
  run cfg [prog; q] w =
    Ended 1 (set_err (err w +:+ index_diagnostic "r")
                     (opening (index_path cfg) w)).
Proof.
  intros Hidx Hq. unfold run. rewrite (main_display _ _ _ Hq).
  unfold bind, display_page, bind, find_page, bind, open_index, bind, fopen.
  fold (index_path cfg). simpl. rewrite Hidx. reflexivity.
Qed.

End LocatorAnyIndex.

Lemma find_page_sound_witness :
  find_page sample_cfg "foo" (world_with_index two_platforms)
    = Return (Some "linux/foo.md")
             (opening (index_path sample_cfg) (world_with_index two_platforms))
  /\ has_char newline "linux/foo.md" = false
  /\ exists platform,
      has_char slash platform = false
      /\ "linux/foo.md" = platform +:+ "/" +:+ "foo" +:+ ".md".
Proof.
  split; [vm_compute; reflexivity|].
  destruct (find_page_sound sample_cfg "foo" "linux/foo.md"
              (world_with_index two_platforms)
              (opening (index_path sample_cfg) (world_with_index two_platforms))
              ltac:(vm_compute; reflexivity))
    as (_ & Hnl & _ & Hbare).
  split; [exact Hnl|]. apply Hbare. reflexivity.
Defined.

(** The platform is named: the line without ['/'] before the match does
    no harm. *)
Lemma find_page_with_platform_witness :
  files (world_with_index stray_file_index) !! index_path sample_cfg
    = Some stray_file_index
  /\ has_char slash "linux/foo" = true
  /\ find_page sample_cfg "linux/foo" (world_with_index stray_file_index)
     = Return (Some "linux/foo.md")
              (opening (index_path sample_cfg) (world_with_index stray_file_index)).
Proof.
  split; [vm_compute; reflexivity|]. split; [reflexivity|].
  apply (find_page_with_platform sample_cfg "linux/foo" stray_file_index
           (world_with_index stray_file_index));
    vm_compute; reflexivity.
Defined.

Lemma display_without_index_witness :
  files (sample_world ∅) !! index_path sample_cfg = None
  /\ is_option "tar" = false
  /\ run sample_cfg ["tldr"; "tar"] (sample_world ∅)
     = Ended 1 (set_err (err (sample_world ∅) +:+ index_diagnostic "r")
                        (opening (index_path sample_cfg) (sample_world ∅))).
Proof.
  split; [vm_compute; reflexivity|]. split; [reflexivity|].
  apply (display_without_index sample_cfg "tldr" "tar" (sample_world ∅));
    vm_compute; reflexivity.
Defined.

(** ** Outcomes of calls *)

Section Outcomes.

Lemma post_bind {A B} (m : prog A) (k : A -> prog B) (w : world)
    (Q : A -> world -> Prop) (R : B -> world -> Prop) (E : nat -> world -> Prop) :
  post (m w) Q E ->
  (forall a w', Q a w' -> post (k a w') R E) ->
  post (bind m k w) R E.
Proof. unfold bind. destruct (m w); simpl; auto. Qed.

Lemma post_impl {A} (o : outcome A) (R R' : A -> world -> Prop)
    (E E' : nat -> world -> Prop) :
  post o R E ->
  (forall a w, R a w -> R' a w) ->
  (forall s w, E s w -> E' s w) ->
  post o R' E'.
Proof. destruct o; simpl; auto. Qed.

Lemma error_terminate_exit {A} (msg : string) (details : option string) (w : world) :
  @error_terminate A msg details w
  = Exit 1 (set_err (err w +:+ diagnostic msg (default "none" details)) w).
Proof. reflexivity. Qed.

Lemma reported_refl_app w msg details :
  reported w (set_err (err w +:+ diagnostic msg details) w).
Proof. by exists msg, details. Qed.

End Outcomes.

(** ** The Archive Extractor on any bundle *)

Section ExtractorAnyBundle.

Variable cfg : config.

Lemma under_root_slash e :
  under_root cfg e = true -> exists p, strchr (pathname e) slash = Some p.
Proof.
  intros He. destruct (prefix_inv _ _ He) as [rel Hrel].
  rewrite Hrel. apply archive_root_slash.
Qed.

Lemma extract_loop_cons e rest w p :
  under_root cfg e = true ->
  strchr (pathname e) slash = Some p ->
  extract_loop cfg (archive_root cfg) (e :: rest) w =
    if writable w (destination cfg e) then
      extract_loop cfg (archive_root cfg) rest
                   (set_files (write_entry cfg (files w) e) w)
    else Exit 1 (set_err (err w +:+ diagnostic "Failed to archive_read_extract()"
                                      (default "none" (archive_error_string w))) w).
Proof.
  intros He Hp. cbn [extract_loop]. rewrite strncmp_eq_prefix.
  fold (under_root cfg e). rewrite He. cbn [negb]. rewrite Hp.
  unfold bind, archive_read_extract, write_entry, destination. rewrite Hp.
  cbn [default]. destruct (writable w _); [|done].
  destruct (contents e); [done|]. by rewrite set_files_same.
Qed.

Lemma extract_loop_stop e rest w :
  under_root cfg e = false ->
  extract_loop cfg (archive_root cfg) (e :: rest) w = Return tt w.
Proof.
  intros He. cbn [extract_loop]. rewrite strncmp_eq_prefix.
  fold (under_root cfg e). by rewrite He.
Qed.

(** What the second loop may have done to the world. *)
Lemma extract_loop_post ar : forall w,
  let touched w' :=
    forall p, files w' !! p <> files w !! p ->
      exists e, In e ar /\ under_root cfg e = true /\ p = destination cfg e in
  post (extract_loop cfg (archive_root cfg) ar w)
       (fun _ w' => out w' = out w /\ err w' = err w /\ touched w')
       (fun s w' => s = 1 /\ out w' = out w /\ reported w w' /\ touched w').
Proof.
  induction ar as [|e ar IH]; intros w touched; subst touched.
  - simpl. by repeat split.
  - destruct (under_root cfg e) eqn:He.
    + destruct (under_root_slash e He) as [p Hp].
      rewrite (extract_loop_cons _ _ _ _ He Hp).
      destruct (writable w _).
      * assert (Hstep : forall w' q,
                  (files w' !! q <> write_entry cfg (files w) e !! q ->
                   exists e', In e' ar /\ under_root cfg e' = true
                              /\ q = destination cfg e') ->
                  files w' !! q <> files w !! q ->
                  exists e', In e' (e :: ar) /\ under_root cfg e' = true
                             /\ q = destination cfg e').
        { intros w' q Hrest Hq.
          destruct (decide (q = destination cfg e)) as [->|Hne].
          - exists e. split; [by left|done].
          - destruct Hrest as (e' & Hin & He' & ->).
            + unfold write_entry. destruct (contents e); [|done].
              by rewrite lookup_insert_ne.
            + exists e'. split; [by right|done]. }
        eapply post_impl; [apply IH| |]; simpl.
        -- intros _ w' (Hout & Herr & Ht). repeat split; [done|done|].
           intros q. apply Hstep, Ht.
        -- intros s w' (Hs & Hout & Herr & Ht). repeat split; [done|done|done|].
           intros q. apply Hstep, Ht.
      * simpl. split; [done|]. split; [done|]. split; [apply reported_refl_app|].
        by intros q.
    + rewrite (extract_loop_stop _ _ _ He). simpl. by repeat split.
Qed.

Lemma seek_root_In root ar rest e :
  seek_root root ar = Some rest -> In e rest -> In e ar.
Proof.
  induction ar as [|e' ar IH]; [done|]. simpl.
  destruct (strcmp_eq (pathname e') root).
  - intros [= <-] H. by right.
  - intros Hseek H. right. by apply IH.
Qed.

Lemma extract_pages_post w :
  let touched w' :=
    forall p, files w' !! p <> files w !! p ->
      exists ar e, bundle w = Some ar /\ In e ar /\ under_root cfg e = true
                   /\ p = destination cfg e in
  post (extract_pages cfg w)
       (fun _ w' => out w' = out w /\ err w' = err w /\ touched w')
       (fun s w' => s = 1 /\ out w' = out w /\ reported w w' /\ touched w').
Proof.
  intros touched. subst touched. unfold extract_pages, bind, open_archive.
  destruct (bundle w) as [ar|] eqn:Hb.
  - fold (archive_root cfg).
    destruct (seek_root (archive_root cfg) ar) as [rest|] eqn:Hseek; [|done].
    eapply post_impl; [apply extract_loop_post| |]; simpl.
    + intros _ w' (Hout & Herr & Ht). repeat split; [done|done|].
      intros p (e & Hin & He & ->)%Ht.
      exists ar, e. split; [done|]. split; [|done]. by eapply seek_root_In.
    + intros s w' (Hs & Hout & Herr & Ht). repeat split; [done|done|done|].
      intros p (e & Hin & He & ->)%Ht.
      exists ar, e. split; [done|]. split; [|done]. by eapply seek_root_In.
  - rewrite error_terminate_exit. simpl.
    split; [done|]. split; [done|]. split; [by eexists _, _|].
    by intros p.
Qed.

(** X6.  Whatever the bundle holds and however the extraction ends, the
    path name under which [extract_pages] has created or changed a file
    is the path of the language root, a ['/'], and what an entry of the
    bundle is named after the synthesized root; nothing is printed on
    the output stream.  This bounds the names handed to the archive
    library, which takes them with flags 0: where a name with [..]
    components leads is not said. *)
Theorem extract_pages_confined (lang : string) (w w' : world) :
  PAGES_LANG cfg = String slash lang ->
  final_world (extract_pages cfg w) = Some w' ->
  out w' = out w
  /\ forall p, files w' !! p <> files w !! p ->
       exists ar rel,
         bundle w = Some ar
         /\ In (archive_root cfg +:+ rel) (map pathname ar)
         /\ p = language_root cfg +:+ "/" +:+ rel.
Proof.
  intros Hlang Hfinal. pose proof (extract_pages_post w) as Hpost.
  assert (Hdest : forall p,
            (exists ar e, bundle w = Some ar /\ In e ar
                          /\ under_root cfg e = true /\ p = destination cfg e) ->
            exists ar rel,
              bundle w = Some ar
              /\ In (archive_root cfg +:+ rel) (map pathname ar)
              /\ p = language_root cfg +:+ "/" +:+ rel).
  { intros p (ar & e & Hb & Hin & He & ->).
    destruct (prefix_inv _ _ He) as [rel Hrel]. exists ar, rel.
    split; [done|]. split.
    - rewrite <- Hrel. by apply in_map.
    - destruct e as [path data]. simpl in Hrel. subst path.
      by apply destination_under_root with (lang := lang). }
  destruct (extract_pages cfg w) as [[] w1|s w1|]; simpl in *; [| |done].
  - injection Hfinal as ->. destruct Hpost as (Hout & _ & Ht).
    split; [done|]. intros p Hp. by apply Hdest, Ht.
  - injection Hfinal as ->. destruct Hpost as (_ & Hout & _ & Ht).
    split; [done|]. intros p Hp. by apply Hdest, Ht.
Qed.

Lemma extract_loop_fails run e rest : forall w,
  Forall (fun e' => under_root cfg e' = true) run ->
  under_root cfg e = true ->
  Forall (fun e' => writable w (destination cfg e') = true) run ->
  writable w (destination cfg e) = false ->
  extract_loop cfg (archive_root cfg) (run ++ e :: rest) w =
    Exit 1 (set_err (err w +:+ diagnostic "Failed to archive_read_extract()"
                                  (default "none" (archive_error_string w)))
                    (set_files (foldl (write_entry cfg) (files w) run) w)).
Proof.
  induction run as [|e' run IH]; intros w Hrun He Hw Hwe.
  - destruct (under_root_slash e He) as [p Hp]. cbn [app foldl].
    rewrite (extract_loop_cons _ _ _ _ He Hp), Hwe. by rewrite set_files_same.
  - apply Forall_cons in Hrun as [He' Hrun]. apply Forall_cons in Hw as [Hwe' Hw].
    destruct (under_root_slash e' He') as [p Hp].
    cbn [app foldl]. rewrite (extract_loop_cons _ _ _ _ He' Hp), Hwe'.
    by rewrite IH.
Qed.

(** X7.  No rollback: when an entry of the run cannot be written,
    [extract_pages] ends the process with status 1 and the diagnostic of
    the archive library; the entries of the run before it stay
    extracted, and nothing after it is. *)
Theorem extract_pages_partial (w : world) (before run rest : archive)
    (root e : archive_entry) :
  bundle w = Some (before ++ root :: run ++ e :: rest) ->
  lacks_root cfg before = true ->
  pathname root = archive_root cfg ->
  forallb (under_root cfg) run = true ->
  under_root cfg e = true ->
  forallb (fun e' => writable w (destination cfg e')) run = true ->
  writable w (destination cfg e) = false ->
  extract_pages cfg w =
    Exit 1 (set_err
              (err w +:+ diagnostic "Failed to archive_read_extract()"
                                    (default "none" (archive_error_string w)))
              (set_files (foldl (write_entry cfg) (files w) run)
                         (opening (PAGES_TMP cfg) w))).
Proof.
  intros Hb Hbefore Hroot Hrun He Hw Hwe.
  rewrite (extract_pages_unfold _ _ _ Hb).
  rewrite (seek_root_found _ _ _ _ (lacks_root_Forall _ _ Hbefore) Hroot).
  apply (extract_loop_fails run e rest (opening (PAGES_TMP cfg) w));
    [by apply forallb_Forall|done| |done].
  by apply (forallb_Forall (fun e' => writable w (destination cfg e'))).
Qed.

End ExtractorAnyBundle.

Lemma extract_pages_confined_witness :
  PAGES_LANG sample_cfg = String slash "pages"
  /\ final_world (extract_pages sample_cfg (world_with_bundle sample_bundle))
     = Some (set_files {[ "/home/u/.cache/tldr/pages/linux/foo.md" := "# foo" ]}
               (opening (PAGES_TMP sample_cfg) (world_with_bundle sample_bundle)))
  /\ forall p,
       ({[ "/home/u/.cache/tldr/pages/linux/foo.md" := "# foo" ]}
          : gmap string string) !! p
       <> files (world_with_bundle sample_bundle) !! p ->
       exists ar rel,
         bundle (world_with_bundle sample_bundle) = Some ar
         /\ In (archive_root sample_cfg +:+ rel) (map pathname ar)
         /\ p = language_root sample_cfg +:+ "/" +:+ rel.
Proof.
  split; [reflexivity|]. split; [vm_compute; reflexivity|].
  refine (proj2 (extract_pages_confined sample_cfg "pages"
                   (world_with_bundle sample_bundle)
                   (set_files
                      {[ "/home/u/.cache/tldr/pages/linux/foo.md" := "# foo" ]}
                      (opening (PAGES_TMP sample_cfg)
                               (world_with_bundle sample_bundle))) _ _));
    vm_compute; reflexivity.
Defined.

(** The second page cannot be written: the first stays, the third is
    not tried. *)
Lemma extract_pages_partial_witness :
  extract_pages sample_cfg
    (world_protecting "/home/u/.cache/tldr/pages/linux/bar.md" two_page_bundle)
  = Exit 1
      (set_err ("Failed to archive_read_extract(); details: Permission denied."
                +:+ nl)
         (set_files {[ "/home/u/.cache/tldr/pages/linux/foo.md" := "# foo" ]}
            (opening (PAGES_TMP sample_cfg)
               (world_protecting "/home/u/.cache/tldr/pages/linux/bar.md"
                                 two_page_bundle)))).
Proof.
  apply (extract_pages_partial sample_cfg
           (world_protecting "/home/u/.cache/tldr/pages/linux/bar.md" two_page_bundle)
           [Entry "tldr-master/" None]
           [Entry "tldr-master/pages/linux/" None;
            Entry "tldr-master/pages/linux/foo.md" (Some "# foo")]
           [Entry "tldr-master/pages/linux/baz.md" (Some "# baz")]
           (Entry "tldr-master/pages/" None)
           (Entry "tldr-master/pages/linux/bar.md" (Some "# bar")));
    vm_compute; reflexivity.
Defined.

(** ** The Index Builder on any configuration and any cache *)

Section IndexBuilderAnyConfig.

Variable cfg : config.

Lemma strstr_found h n : forall found,
  strstr h n = Some found -> String.prefix n found = true.
Proof.
  induction h as [|c h IH]; intros found.
  - change (strstr "" n) with (if String.prefix n "" then Some "" else None).
    destruct (String.prefix n "") eqn:Hp; [|done]. by intros [= <-].
  - rewrite strstr_cons. destruct (String.prefix n (String c h)) eqn:Hp.
    + by intros [= <-].
    + apply IH.
Qed.

Lemma strstr_occurs n : forall pre, exists found, strstr (pre +:+ n) n = Some found.
Proof.
  induction pre as [|c pre IH].
  - exists n. rewrite string_app_nil_l. apply strstr_prefix.
    rewrite <- (string_app_nil_r n) at 2. apply prefix_app.
  - rewrite string_app_cons, strstr_cons.
    destruct (String.prefix n (String c (pre +:+ n))); [by eexists|exact IH].
Qed.

(** The first occurrence of [PAGES_LANG] in the path of the language
    root. *)
Lemma language_root_found :
  PAGES_LANG cfg <> "" ->
  exists c t, strstr (language_root cfg) (PAGES_LANG cfg) = Some (String c t).
Proof.
  intros Hlang. unfold language_root. rewrite <- string_app_assoc.
  destruct (strstr_occurs (PAGES_LANG cfg) (HOME cfg +:+ PAGES_PATH cfg))
    as [found Hfound].
  rewrite Hfound. apply strstr_found in Hfound.
  destruct found as [|c t]; [|by exists c, t].
  destruct (PAGES_LANG cfg); [done|discriminate].
Qed.

(** The callback on a regular file below the language root, whatever the
    configuration. *)
Lemma ftw_callback_any_config fp rel w old :
  PAGES_LANG cfg <> "" ->
  files w !! f_path fp = Some old ->
  ftw_callback cfg fp (language_root cfg +:+ "/" +:+ rel) FTW_F w
  = Return 0%Z (with_file (f_path fp) (old +:+ (index_prefix cfg +:+ rel) +:+ nl) w).
Proof.
  intros Hlang Hold. destruct (language_root_found Hlang) as (c & t & Hfound).
  unfold ftw_callback, index_prefix. rewrite Hfound. cbn [ptr_succ].
  assert (strstr (language_root cfg +:+ "/" +:+ rel) (PAGES_LANG cfg)
          = Some (String c t +:+ "/" +:+ rel)) as ->.
  { unfold language_root in *. rewrite <- (string_app_assoc (HOME cfg)) in *.
    rewrite string_app_assoc. by rewrite strstr_extend, Hfound. }
  rewrite string_app_cons. cbn [ptr_succ].
  destruct (strchr t slash) as [p|] eqn:Hp.
  - rewrite (strchr_app_some _ _ _ _ Hp).
    destruct (strchr_starts _ _ _ Hp) as [t' ->].
    rewrite string_app_cons. cbn [ptr_succ].
    unfold bind, fprint, ret. rewrite Hold. cbn [default].
    by rewrite !string_app_assoc.
  - rewrite (strchr_app_none _ _ _ Hp), string_app_cons, strchr_head.
    cbn [ptr_succ]. rewrite !string_app_nil_l.
    unfold bind, fprint, ret. by rewrite Hold.
Qed.

Lemma ftw_calls_any_config fp visits : forall w old,
  PAGES_LANG cfg <> "" ->
  files w !! f_path fp = Some old ->
  ftw_calls (ftw_callback cfg fp) (map (below (language_root cfg)) visits) w
  = Return 0%Z
      (with_file (f_path fp)
         (old +:+ unlines (map (String.append (index_prefix cfg))
                               (map fst (List.filter is_file visits)))) w).
Proof.
  induction visits as [|[rel fl] visits IH]; intros w old Hlang Hold.
  - simpl. unfold ret. by rewrite string_app_nil_r, with_file_same.
  - cbn [map below fst snd ftw_calls]. unfold bind.
    destruct fl.
    + rewrite (ftw_callback_any_config _ _ _ _ Hlang Hold). cbn [Z.eqb].
      rewrite (IH _ (old +:+ (index_prefix cfg +:+ rel) +:+ nl) Hlang)
        by (unfold with_file; simpl; apply lookup_insert_eq).
      rewrite with_file_twice.
      cbn [List.filter is_file snd map fst unlines fold_right].
      by rewrite !string_app_assoc.
    + simpl. by apply IH.
    + simpl. by apply IH.
Qed.

(** X8.  For every configuration with a language subtree named, the
    index that [index_pages] writes over a directory has one line for
    each regular file below the language root, in the order of the walk:
    the path of the file relative to that root, preceded by whatever lies
    between the first ['/'] after the first occurrence of [PAGES_LANG]
    in the path of the language root and the end of that path.  The
    lines are the relative paths themselves only when that part is
    empty. *)
Theorem index_pages_any_config (w : world) (entries : list (string * tree)) :
  PAGES_LANG cfg <> "" ->
  writable w (index_path cfg) = true ->
  cache w = Some (Dir entries) ->
  index_pages cfg w
  = Return tt (with_file (index_path cfg)
                 (unlines (map (String.append (index_prefix cfg))
                               (relative_files (Dir entries))))
                 (opening (index_path cfg) w)).
Proof.
  intros Hlang Hw Hcache.
  unfold index_pages, open_index, bind, fopen. fold (index_path cfg).
  fold (language_root cfg). simpl. rewrite Hw. unfold ret, ftw. simpl.
  rewrite Hcache. cbn [ftw_visits ftw_calls]. unfold bind at 1. simpl.
  rewrite (flat_map_ext_Forall _
             (fun e => map (below (language_root cfg))
                           (ftw_visits (fst e) (snd e))))
    by (apply List.Forall_forall; intros e _; apply ftw_visits_below).
  rewrite <- flat_map_map.
  rewrite (ftw_calls_any_config (Stream (index_path cfg) "w" "") _ _ "" Hlang)
    by (simpl; apply lookup_insert_eq).
  rewrite string_app_nil_l, <- relative_files_visits. simpl.
  fold (opening (index_path cfg) w).
  exact (f_equal (Return tt)
           (with_file_twice (index_path cfg) "" _ (opening (index_path cfg) w))).
Qed.

(** X9.  When nothing lies at the language root, [ftw] fails and
    [index_pages] does not look at its answer: the index is left empty
    and the call returns as after a successful walk, with nothing on the
    error stream. *)
Theorem index_pages_without_cache (w : world) :
  writable w (index_path cfg) = true ->
  cache w = None ->
  index_pages cfg w
  = Return tt (with_file (index_path cfg) "" (opening (index_path cfg) w)).
Proof.
  intros Hw Hcache.
  unfold index_pages, open_index, bind, fopen. fold (index_path cfg).
  simpl. rewrite Hw. unfold ret, ftw. simpl. by rewrite Hcache.
Qed.

Lemma ftw_callback_post fp path fl w :
  post (ftw_callback cfg fp path fl w)
       (fun _ w' => out w' = out w /\ err w' = err w /\ cache w' = cache w
                    /\ opened w' = opened w /\ same_files_but (f_path fp) w w')
       (fun _ _ => False).
Proof.
  unfold ftw_callback. destruct fl; try by simpl.
  destruct (strstr path (PAGES_LANG cfg)) as [lang|]; [|done].
  destruct (strchr (ptr_succ lang) slash) as [p|]; [|done].
  simpl. repeat split. intros q Hq. simpl. by rewrite lookup_insert_ne.
Qed.

Lemma ftw_calls_post fp visits : forall w,
  post (ftw_calls (ftw_callback cfg fp) visits w)
       (fun _ w' => out w' = out w /\ err w' = err w /\ cache w' = cache w
                    /\ opened w' = opened w /\ same_files_but (f_path fp) w w')
       (fun _ _ => False).
Proof.
  induction visits as [|[path fl] visits IH]; intros w; [by simpl|].
  cbn [ftw_calls]. eapply post_bind; [apply ftw_callback_post|].
  intros r w1 (Hout & Herr & Hcache & Hopened & Hfiles).
  destruct (Z.eqb r 0).
  - eapply post_impl; [apply IH| |done]. simpl.
    intros _ w' (Hout' & Herr' & Hcache' & Hopened' & Hfiles').
    repeat split; try congruence.
    intros q Hq. by rewrite Hfiles', Hfiles.
  - by simpl.
Qed.

Lemma index_pages_post w :
  post (index_pages cfg w)
       (fun _ w' => out w' = out w /\ err w' = err w /\ cache w' = cache w
                    /\ opened w' = opened w ++ [index_path cfg]
                    /\ same_files_but (index_path cfg) w w')
       (fun s w' => s = 1 /\ out w' = out w /\ reported w w'
                    /\ files w' = files w /\ cache w' = cache w).
Proof.
  unfold index_pages, open_index, bind at 1 2, fopen. fold (index_path cfg).
  simpl. destruct (writable w (index_path cfg)).
  - simpl. unfold ftw. unfold bind. simpl.
    destruct (cache w) as [t|] eqn:Hcache; simpl.
    + pose proof (ftw_calls_post (Stream (index_path cfg) "w" "")
                    (ftw_visits (HOME cfg +:+ PAGES_PATH cfg +:+ PAGES_LANG cfg) t)
                    (set_files (<[index_path cfg:=""]> (files w))
                       (set_opened (opened w ++ [index_path cfg]) w))) as Hpost.
      destruct (ftw_calls _ _ _) as [r w'|s w'|]; simpl in *; [|done|done].
      destruct Hpost as (Hout & Herr & Hc & Hopened & Hfiles).
      repeat split; try done; [congruence|].
      intros q Hq. rewrite (Hfiles q Hq). simpl. by rewrite lookup_insert_ne.
    + repeat split; try done. intros q Hq. simpl. by rewrite lookup_insert_ne.
  - simpl. repeat split. by eexists _, _.
Qed.

(** X10.  Whatever the cache and the configuration, when [index_pages]
    does not fault it has changed no file but the index, printed
    nothing, left the cache as it was and opened the index only; and
    when it ends the process, it has reported why and changed no file
    at all. *)
Theorem index_pages_frame (w w' : world) :
  final_world (index_pages cfg w) = Some w' ->
  same_files_but (index_path cfg) w w'
  /\ out w' = out w
  /\ cache w' = cache w
  /\ (index_pages cfg w = Exit 1 w' -> files w' = files w /\ reported w w').
Proof.
  intros Hfinal. pose proof (index_pages_post w) as Hpost.
  destruct (index_pages cfg w) as [[] w1|s w1|]; simpl in *; [| |done].
  - injection Hfinal as ->. destruct Hpost as (Hout & _ & Hcache & _ & Hfiles).
    by repeat split.
  - injection Hfinal as ->. destruct Hpost as (-> & Hout & Hrep & Hfiles & Hcache).
    repeat split; try done. intros q _. by rewrite Hfiles.
Qed.

End IndexBuilderAnyConfig.

(** The home directory ends in the name of the language subtree: every
    line of the index carries the rest of the path of the language
    root. *)
Lemma index_pages_any_config_witness :
  PAGES_LANG pages_home_cfg <> ""
  /\ index_prefix pages_home_cfg = ".cache/tldr/pages/"
  /\ index_pages pages_home_cfg (world_with_cache sample_cache)
     = Return tt
         (with_file (index_path pages_home_cfg)
            (".cache/tldr/pages/linux/foo.md" +:+ nl
             +:+ ".cache/tldr/pages/linux/bar.md" +:+ nl
             +:+ ".cache/tldr/pages/common/foo.md" +:+ nl)
            (opening (index_path pages_home_cfg) (world_with_cache sample_cache))).
Proof.
  split; [discriminate|]. split; [reflexivity|].
  apply (index_pages_any_config pages_home_cfg (world_with_cache sample_cache)
           [ ("linux", Dir [("foo.md", File); ("bar.md", File)]);
             ("common", Dir [("foo.md", File)]) ]);
    [discriminate|reflexivity|reflexivity].
Defined.

Lemma index_pages_without_cache_witness :
  index_pages sample_cfg (world_with_index two_platforms)
  = Return tt (with_file (index_path sample_cfg) ""
                 (opening (index_path sample_cfg) (world_with_index two_platforms))).
Proof.
  apply (index_pages_without_cache sample_cfg (world_with_index two_platforms));
    reflexivity.
Defined.

Lemma index_pages_frame_witness :
  final_world (index_pages sample_cfg (world_with_cache stray_file_cache))
    = Some (with_file (index_path sample_cfg)
              ("README.md" +:+ nl +:+ "linux/foo.md" +:+ nl)
              (opening (index_path sample_cfg) (world_with_cache stray_file_cache)))
  /\ same_files_but (index_path sample_cfg)
       (world_with_cache stray_file_cache)
       (with_file (index_path sample_cfg)
          ("README.md" +:+ nl +:+ "linux/foo.md" +:+ nl)
          (opening (index_path sample_cfg) (world_with_cache stray_file_cache))).
Proof.
  split; [vm_compute; reflexivity|].
  refine (proj1 (index_pages_frame sample_cfg
                   (world_with_cache stray_file_cache)
                   (with_file (index_path sample_cfg)
                      ("README.md" +:+ nl +:+ "linux/foo.md" +:+ nl)
                      (opening (index_path sample_cfg)
                               (world_with_cache stray_file_cache))) _)).
  vm_compute; reflexivity.
Defined.

(** ** The update as a whole *)

Section Update.

Variable cfg : config.

Lemma fetch_pages_post w :
  post (fetch_pages cfg w)
       (fun _ w' => out w' = out w /\ err w' = err w)
       (fun s w' => s = 1 /\ out w' = out w /\ reported w w').
Proof.
  unfold fetch_pages, bind, fopen. simpl.
  destruct (writable w (PAGES_TMP cfg)); simpl.
  - destruct (remote w); simpl; [done|]. repeat split. by eexists _, _.
  - repeat split. by eexists _, _.
Qed.

Lemma reported_from w w1 w' : err w1 = err w -> reported w1 w' -> reported w w'.
Proof. intros H (msg & details & Herr). exists msg, details. by rewrite <- H. Qed.

Lemma main_update p w :
  main cfg [p; "-u"] w =
    bind (puts "Fetching pages...") (fun _ =>
      bind (fetch_pages cfg) (fun _ =>
        bind (puts "Extracting pages...") (fun _ =>
          bind (extract_pages cfg) (fun _ =>
            bind (puts "Indexing pages...") (fun _ =>
              bind (index_pages cfg) (fun _ => ret 0%Z)))))) w.
Proof. reflexivity. Qed.

Lemma update_post p w :
  post (main cfg [p; "-u"] w)
       (fun s w' => s = 0%Z /\ err w' = err w /\ out w' = out w +:+ update_progress)
       (fun s w' => s = 1 /\ reported w w').
Proof.
  rewrite main_update.
  apply post_bind with
    (Q := fun _ w1 => err w1 = err w
                      /\ out w1 = out w +:+ "Fetching pages..." +:+ nl);
    [by simpl|].
  intros _ w1 [He1 Ho1].
  apply post_bind with (Q := fun _ w2 => err w2 = err w /\ out w2 = out w1).
  { eapply post_impl; [apply fetch_pages_post| |]; simpl.
    - intros _ w2 [Ho He]. split; congruence.
    - intros s w2 (Hs & _ & Hrep). split; [done|]. by apply reported_from with w1. }
  intros _ w2 [He2 Ho2].
  apply post_bind with
    (Q := fun _ w3 => err w3 = err w
                      /\ out w3 = out w1 +:+ "Extracting pages..." +:+ nl);
    [simpl; split; congruence|].
  intros _ w3 [He3 Ho3].
  apply post_bind with (Q := fun _ w4 => err w4 = err w /\ out w4 = out w3).
  { eapply post_impl; [apply extract_pages_post| |]; simpl.
    - intros _ w4 (Ho & He & _). split; congruence.
    - intros s w4 (Hs & _ & Hrep & _). split; [done|]. by apply reported_from with w3. }
  intros _ w4 [He4 Ho4].
  apply post_bind with
    (Q := fun _ w5 => err w5 = err w
                      /\ out w5 = out w3 +:+ "Indexing pages..." +:+ nl);
    [simpl; split; congruence|].
  intros _ w5 [He5 Ho5].
  apply post_bind with (Q := fun _ w6 => err w6 = err w /\ out w6 = out w5).
  { eapply post_impl; [apply index_pages_post| |]; simpl.
    - intros _ w6 (Ho & He & _). split; congruence.
    - intros s w6 (Hs & _ & Hrep & _). split; [done|]. by apply reported_from with w5. }
  intros _ w6 [He6 Ho6]. simpl. split; [done|]. split; [done|].
  rewrite Ho6, Ho5, Ho3, Ho1. unfold update_progress.
  by rewrite !string_app_assoc.
Qed.


(** X12.  When the temporary file cannot be created or the transfer
    fails, the update stops in the Fetcher with status 1 and a
    diagnostic: only the first progress line is printed, no file but the
    temporary one is opened or changed, so neither the cache nor the
    index is touched. *)
Theorem update_stops_at_fetch (p : string) (w : world) :
  writable w (PAGES_TMP cfg) = false \/ (exists e, remote w = inr e) ->
  exists w',
    run cfg [p; "-u"] w = Ended 1 w'
    /\ out w' = out w +:+ "Fetching pages..." +:+ nl
    /\ opened w' = opened w ++ [PAGES_TMP cfg]
    /\ same_files_but (PAGES_TMP cfg) w w'
    /\ reported w w'.
Proof.
  intros H. unfold run. rewrite main_update.
  unfold bind at 1. simpl. unfold bind at 1.
  unfold fetch_pages, bind at 1, fopen. simpl.
  destruct (writable w (PAGES_TMP cfg)) eqn:Hw; simpl.
  - destruct H as [H|[e He]]; [done|]. rewrite He. simpl.
    eexists. split; [done|]. simpl. repeat split.
    + intros q Hq. simpl. by rewrite lookup_insert_ne.
    + by eexists _, _.
  - eexists. split; [done|]. simpl. repeat split. by eexists _, _.
Qed.

End Update.


Lemma update_stops_at_fetch_witness :
  exists w',
    run sample_cfg ["tldr"; "-u"] (read_only_world ∅) = Ended 1 w'
    /\ out w' = out (read_only_world ∅) +:+ "Fetching pages..." +:+ nl
    /\ opened w' = opened (read_only_world ∅) ++ [PAGES_TMP sample_cfg]
    /\ same_files_but (PAGES_TMP sample_cfg) (read_only_world ∅) w'
    /\ reported (read_only_world ∅) w'.
Proof.
  apply (update_stops_at_fetch sample_cfg "tldr" (read_only_world ∅)).
  left. reflexivity.
Defined.

(** ** Displaying a page, from the command line *)

Section Display.

Variable cfg : config.

(** X13.  Locator and Renderer together: when the index is fit for the
    query and its first matching line names a page that is on disk, the
    program prints, for each buffer that [fgets] reads from the page,
    what the four style rules give, opens the index and then the page
    and nothing else, and ends with status 0. *)
Theorem display_indexed_page (p q idx line page : string) (w : world) :
  files w !! index_path cfg = Some idx ->
  index_ok_for q idx = true ->
  find_spec q (text_lines idx) = Some line ->
  files w !! page_file cfg line = Some page ->
  is_option q = false ->
  run cfg [p; q] w =
    Ended 0
      (set_out (out w +:+ concat_strings
                            (map (render_line cfg) (read_lines BUF_SIZE page)))
         (opening (page_file cfg line) (opening (index_path cfg) w))).
Proof.
  intros Hidx Hok Hfind Hpage Hq. unfold run.
  rewrite (main_display _ _ _ _ Hq). unfold bind at 1.
  pose proof (find_page_index_ok_for cfg q w idx Hidx Hok) as Hf.
  rewrite Hfind in Hf. rewrite (display_page_found _ _ _ _ _ Hf).
  change (files (opening (index_path cfg) w)) with (files w).
  by rewrite Hpage.
Qed.

Lemma find_page_post q w :
  post (find_page cfg q w)
       (fun _ w' => w' = opening (index_path cfg) w)
       (fun s w' => s = 1 /\ files w' = files w /\ cache w' = cache w
                    /\ bundle w' = bundle w).
Proof.
  unfold find_page, bind, open_index, bind, fopen. fold (index_path cfg). simpl.
  destruct (files w !! index_path cfg) as [idx|]; simpl; [|done].
  by destruct (find_scan _ _ _).
Qed.

Lemma display_page_post q w :
  post (display_page cfg q w)
       (fun _ w' => files w' = files w /\ cache w' = cache w
                    /\ bundle w' = bundle w)
       (fun s w' => s = 1 /\ files w' = files w /\ cache w' = cache w
                    /\ bundle w' = bundle w).
Proof.
  pose proof (find_page_post q w) as Hpost.
  destruct (find_page cfg q w) as [[line|] w1|s w1|] eqn:Hf; simpl in Hpost.
  - subst w1. rewrite (display_page_found _ _ _ _ _ Hf).
    by destruct (files _ !! _).
  - subst w1. by rewrite (display_page_miss _ _ _ _ Hf).
  - unfold display_page, bind. by rewrite Hf.
  - unfold display_page, bind. by rewrite Hf.
Qed.

End Display.

Lemma display_indexed_page_witness :
  run sample_cfg ["tldr"; "foo"] (world_with_page sample_page)
  = Ended 0
      (set_out (out (world_with_page sample_page) +:+ concat_strings
                  (map (render_line sample_cfg) (read_lines BUF_SIZE sample_page)))
         (opening (page_file sample_cfg "linux/foo.md")
            (opening (index_path sample_cfg) (world_with_page sample_page)))).
Proof.
  apply (display_indexed_page sample_cfg "tldr" "foo" ("linux/foo.md" +:+ nl)
           "linux/foo.md" sample_page (world_with_page sample_page));
    vm_compute; reflexivity.
Defined.

(** ** The command line *)

Section CommandLine.

Variable cfg : config.

(** X14.  With an argument count other than two the program prints the
    usage text and returns 1; with the one argument [-h] it prints the
    same text and returns 0.  In both cases it does nothing else. *)
Theorem usage_shown (argv : list string) (w : world) :
  length argv <> 2 \/ nth 1 argv "" = "-h" ->
  run cfg argv w =
    Ended (if Nat.eqb (length argv) 2 then 0 else 1)
          (set_out (out w +:+ usage_text) w).
Proof.
  intros H. destruct argv as [|a [|b [|c argv]]]; try reflexivity.
  destruct H as [H|H]; [done|]. simpl in H. by subst b.
Qed.

(** X15.  When the index cannot be opened for writing, both callers of
    [open_index("w")], the listing and the Index Builder, end the process
    with status 1 and the diagnostic of [open_index]; no file is changed
    and the cache is not walked. *)
Theorem unwritable_index (w : world) :
  writable w (index_path cfg) = false ->
  list_pages cfg w
    = Exit 1 (set_err (err w +:+ index_diagnostic "w") (opening (index_path cfg) w))
  /\ index_pages cfg w
    = Exit 1 (set_err (err w +:+ index_diagnostic "w") (opening (index_path cfg) w)).
Proof.
  intros Hw. unfold list_pages, index_pages, bind, open_index, bind, fopen.
  fold (index_path cfg). simpl. rewrite Hw. by split.
Qed.

Lemma main_list p w :
  main cfg [p; "-l"] w = bind (list_pages cfg) (fun _ => ret 0%Z) w.
Proof. reflexivity. Qed.

(** X16.  Listing the pages costs the index: after [tldr -l], which
    prints nothing and returns 0, every request for a page ends with the
    not-found message and status 1, until the index is built again. *)
Theorem list_then_display (p q : string) (w : world) :
  writable w (index_path cfg) = true ->
  is_option q = false ->
  exists w1,
    run cfg [p; "-l"] w = Ended 0 w1
    /\ out w1 = out w
    /\ run cfg [p; q] w1
       = Ended 1 (set_out (out w +:+ not_found_message)
                          (opening (index_path cfg) w1)).
Proof.
  intros Hw Hq. unfold run. rewrite main_list. unfold bind at 1.
  rewrite (list_pages_any_index _ _ Hw). eexists. split; [reflexivity|].
  split; [reflexivity|].
  rewrite (main_display _ _ _ _ Hq). unfold bind at 1.
  set (w1 := with_file (index_path cfg) "" (opening (index_path cfg) w)).
  assert (Hf : find_page cfg q w1 = Return None (opening (index_path cfg) w1)).
  { rewrite (find_page_unfold cfg q w1 "");
      [done|unfold w1, with_file; simpl; apply lookup_insert_eq]. }
  by rewrite (display_page_miss _ _ _ _ Hf).
Qed.

(** X17.  Only the update and the listing write: when the argument is
    neither [-u] nor [-l], the program ends with every file, the cache
    and the bundle as they were. *)
Theorem only_update_and_list_write (argv : list string) (w w' : world) (s : Z) :
  run cfg argv w = Ended s w' ->
  nth 1 argv "" <> "-u" ->
  nth 1 argv "" <> "-l" ->
  files w' = files w /\ cache w' = cache w /\ bundle w' = bundle w.
Proof.
  intros Hrun Hu Hl.
  destruct argv as [|a [|b [|c argv]]];
    try (injection Hrun as _ <-; done).
  simpl in Hu, Hl. unfold run, main, strcmp_eq in Hrun.
  destruct (String.eqb_spec "-h" b) as [_|_]; [injection Hrun as _ <-; done|].
  destruct (String.eqb_spec "-u" b) as [<-|_]; [done|].
  destruct (String.eqb_spec "-l" b) as [<-|_]; [done|].
  unfold bind in Hrun. pose proof (display_page_post cfg b w) as Hpost.
  destruct (display_page cfg b w) as [[] w1|n w1|]; simpl in Hpost; [| |done].
  - injection Hrun as _ <-. done.
  - injection Hrun as _ <-. by destruct Hpost as [_ ?].
Qed.

Lemma list_pages_post w :
  post (list_pages cfg w) (fun _ _ => True) (fun s _ => s = 1).
Proof.
  destruct (writable w (index_path cfg)) eqn:Hw.
  - by rewrite (list_pages_any_index _ _ Hw).
  - unfold list_pages, bind, open_index, bind, fopen.
    fold (index_path cfg). simpl. by rewrite Hw.
Qed.

Lemma main_post argv w :
  post (main cfg argv w) (fun s _ => s = 0%Z \/ s = 1%Z) (fun s _ => s = 1).
Proof.
  destruct argv as [|a [|b [|c argv]]]; try (simpl; by right).
  unfold main, strcmp_eq.
  destruct (String.eqb "-h" b); [simpl; by left|].
  destruct (String.eqb_spec "-u" b) as [<-|_].
  { eapply post_impl; [apply (update_post cfg a w)| |]; simpl.
    - intros s _ (-> & _). by left.
    - by intros s _ [-> _]. }
  destruct (String.eqb "-l" b).
  - eapply post_bind; [apply list_pages_post|]. intros _ w' _. simpl. by left.
  - eapply post_bind.
    + eapply post_impl; [apply display_page_post| |]; simpl.
      * intros a0 w0 _. exact I.
      * by intros s w0 [-> _].
    + intros _ w' _. simpl. by left.
Qed.

(** X18.  However the program is called and whatever it finds, when it
    ends without a fault its status is 0 or 1. *)
Theorem exit_status (argv : list string) (w : world) :
  match run cfg argv w with
  | Ended s _ => s = 0%Z \/ s = 1%Z
  | Crashed => True
  end.
Proof.
  unfold run. pose proof (main_post argv w) as Hpost.
  destruct (main cfg argv w) as [s w'|n w'|]; simpl in *; [done| |done].
  subst n. by right.
Qed.

End CommandLine.

Lemma usage_shown_witness :
  run sample_cfg ["tldr"; "a"; "b"] (sample_world ∅)
    = Ended 1 (set_out (out (sample_world ∅) +:+ usage_text) (sample_world ∅))
  /\ run sample_cfg ["tldr"; "-h"] (sample_world ∅)
    = Ended 0 (set_out (out (sample_world ∅) +:+ usage_text) (sample_world ∅)).
Proof.
  split.
  - apply (usage_shown sample_cfg ["tldr"; "a"; "b"] (sample_world ∅)).
    left. simpl. lia.
  - apply (usage_shown sample_cfg ["tldr"; "-h"] (sample_world ∅)).
    right. reflexivity.
Defined.

Lemma unwritable_index_witness :
  list_pages sample_cfg (read_only_world {[ index_path sample_cfg := two_platforms ]})
    = Exit 1
        (set_err (index_diagnostic "w")
           (opening (index_path sample_cfg)
              (read_only_world {[ index_path sample_cfg := two_platforms ]})))
  /\ index_pages sample_cfg
       (read_only_world {[ index_path sample_cfg := two_platforms ]})
    = Exit 1
        (set_err (index_diagnostic "w")
           (opening (index_path sample_cfg)
              (read_only_world {[ index_path sample_cfg := two_platforms ]}))).
Proof.
  apply (unwritable_index sample_cfg
           (read_only_world {[ index_path sample_cfg := two_platforms ]})).
  reflexivity.
Defined.

Lemma list_then_display_witness :
  exists w1,
    run sample_cfg ["tldr"; "-l"] (world_with_index two_platforms) = Ended 0 w1
    /\ out w1 = out (world_with_index two_platforms)
    /\ run sample_cfg ["tldr"; "foo"] w1
       = Ended 1 (set_out (out (world_with_index two_platforms) +:+ not_found_message)
                          (opening (index_path sample_cfg) w1)).
Proof.
  apply (list_then_display sample_cfg "tldr" "foo" (world_with_index two_platforms));
    reflexivity.
Defined.

Lemma only_update_and_list_write_witness :
  files (set_out (out (world_with_index two_platforms) +:+ not_found_message)
           (opening (index_path sample_cfg) (world_with_index two_platforms)))
    = files (world_with_index two_platforms)
  /\ cache (set_out (out (world_with_index two_platforms) +:+ not_found_message)
              (opening (index_path sample_cfg) (world_with_index two_platforms)))
    = cache (world_with_index two_platforms)
  /\ bundle (set_out (out (world_with_index two_platforms) +:+ not_found_message)
               (opening (index_path sample_cfg) (world_with_index two_platforms)))
    = bundle (world_with_index two_platforms).
Proof.
  apply (only_update_and_list_write sample_cfg ["tldr"; "nosuch"]
           (world_with_index two_platforms)
           (set_out (out (world_with_index two_platforms) +:+ not_found_message)
              (opening (index_path sample_cfg) (world_with_index two_platforms)))
           1%Z);
    [vm_compute; reflexivity|discriminate|discriminate].
Defined.

(** ** Where the program can crash *)

Section Crashes.

Variable cfg : config.

(** X19.  With [config.h] as the Index Builder needs it and a writable
    index, [index_pages] faults in exactly one case: a regular file lies
    where the language root should be.  [ftw] then hands that path to the
    callback, no ['/'] follows the name of the language subtree in it,
    and the callback adds one to the [NULL] that [strchr] gives. *)
Theorem index_pages_fault_iff (w : world) :
  config_ok cfg = true ->
  writable w (index_path cfg) = true ->
  index_pages cfg w = Fault <-> cache w = Some File.
Proof.
  intros Hcfg Hw. split.
  - destruct (cache w) as [[|entries|]|] eqn:Hcache; [done| | |].
    + by rewrite (index_pages_dir _ _ _ Hcfg Hw Hcache).
    + unfold index_pages, open_index, bind, fopen. fold (index_path cfg).
      simpl. rewrite Hw. unfold ret, ftw. simpl. by rewrite Hcache.
    + unfold index_pages, open_index, bind, fopen. fold (index_path cfg).
      simpl. rewrite Hw. unfold ret, ftw. simpl. by rewrite Hcache.
  - intros Hcache. destruct (config_ok_inv _ Hcfg) as (lang & Hlang & Hsl & Hstr).
    unfold index_pages, open_index, bind, fopen. fold (index_path cfg).
    fold (language_root cfg). simpl. rewrite Hw. unfold ret, ftw. simpl.
    rewrite Hcache. cbn [ftw_visits ftw_calls]. unfold bind, ftw_callback.
    rewrite Hstr, Hlang. cbn [ptr_succ]. rewrite Hsl. reflexivity.
Qed.

Lemma find_scan_miss_inv q recs :
  strchr q slash = None ->
  find_scan q (q +:+ ".md" +:+ nl) recs = Miss ->
  Forall (fun r => exists p, strchr r slash = Some p
                             /\ ptr_succ p <> q +:+ ".md" +:+ nl) recs.
Proof.
  intros Hq. induction recs as [|r recs IH]; [by constructor|].
  cbn [find_scan]. rewrite Hq. unfold strcmp_eq.
  destruct (strchr r slash) as [p|] eqn:Hp; [|done].
  destruct (String.eqb_spec (q +:+ ".md" +:+ nl) (ptr_succ p)) as [Heq|Hne].
  - by destruct (cut_at r newline).
  - intros H. constructor; [|by apply IH]. exists p. split; [done|congruence].
Qed.

(** X20.  A [NULL] from [find_page] for a query without ['/'] means the
    page is in no platform of the index: no buffer read from the index is
    [platform/query.md] with its newline. *)
Theorem find_page_null_means_absent (q idx platform : string) (w w' : world) :
  files w !! index_path cfg = Some idx ->
  find_page cfg q w = Return None w' ->
  has_char slash q = false ->
  has_char slash platform = false ->
  ~ In (platform +:+ "/" +:+ q +:+ ".md" +:+ nl) (read_lines BUF_SIZE idx).
Proof.
  intros Hidx Hf Hq%has_char_false Hp%has_char_false Hin.
  rewrite (find_page_unfold _ _ _ _ Hidx) in Hf.
  destruct (find_scan _ _ _) eqn:Hscan; [done| |done].
  apply (find_scan_miss_inv _ _ Hq) in Hscan.
  rewrite List.Forall_forall in Hscan.
  destruct (Hscan _ Hin) as (p & Hsome & Hne).
  rewrite (strchr_app_none _ _ _ Hp), string_app_cons, strchr_head in Hsome.
  injection Hsome as <-. by apply Hne.
Qed.

(** X21.  Two ways in which a request for a page crashes, whatever the
    index and the page are otherwise: the query has no ['/'] and a
    buffer without ['/'] is read from the index before any match, so
    that the scan adds one to a [NULL]; or the Page Locator finds a line
    whose page is not on disk, and the Renderer reads from the stream
    that [fopen] did not give.  In both the process is killed without a
    diagnostic. *)
Theorem display_crashes_when (p q idx : string) (w : world) :
  is_option q = false ->
  files w !! index_path cfg = Some idx ->
  (has_char slash q = false
   /\ reaches_bare_buffer q (read_lines BUF_SIZE idx))
  \/ (exists line,
        find_page cfg q w = Return (Some line) (opening (index_path cfg) w)
        /\ files w !! page_file cfg line = None) ->
  run cfg [p; q] w = Crashed.
Proof.
  intros Hq Hidx H. unfold run. rewrite (main_display _ _ _ _ Hq).
  unfold bind at 1. destruct H as [Hbare|(line & Hf & Hpage)].
  - apply find_scan_fault_iff in Hbare.
    unfold display_page, bind at 1.
    rewrite (find_page_unfold _ _ _ _ Hidx), Hbare. done.
  - by rewrite (display_page_missing_file _ _ _ _ _ Hf Hpage).
Qed.

End Crashes.

Lemma index_pages_fault_iff_witness :
  index_pages sample_cfg (world_with_cache File) = Fault
  <-> cache (world_with_cache File) = Some File.
Proof.
  apply (index_pages_fault_iff sample_cfg (world_with_cache File)); reflexivity.
Defined.

Lemma find_page_null_means_absent_witness :
  ~ In ("linux" +:+ "/" +:+ "bar" +:+ ".md" +:+ nl)
       (read_lines BUF_SIZE two_platforms).
Proof.
  apply (find_page_null_means_absent sample_cfg "bar" two_platforms "linux"
           (world_with_index two_platforms)
           (opening (index_path sample_cfg) (world_with_index two_platforms)));
    vm_compute; reflexivity.
Defined.

Lemma display_crashes_when_witness :
  run sample_cfg ["tldr"; "foo"] (world_with_index stray_file_index) = Crashed
  /\ run sample_cfg ["tldr"; "foo"] (world_with_index two_platforms) = Crashed.
Proof.
  split.
  - apply (display_crashes_when sample_cfg "tldr" "foo" stray_file_index
             (world_with_index stray_file_index));
      [reflexivity|vm_compute; reflexivity|].
    left. split; [reflexivity|].
    exists [], ("README.md" +:+ nl), ["linux/foo.md" +:+ nl].
    repeat split; vm_compute; reflexivity.
  - apply (display_crashes_when sample_cfg "tldr" "foo" two_platforms
             (world_with_index two_platforms));
      [reflexivity|vm_compute; reflexivity|].
    right. exists "linux/foo.md". split; vm_compute; reflexivity.
Defined.
